(** * Nanoleaf gateway: device protocol, streaming codec and device registry

    A shallow embedding of [device-manager.ts] and of the two copies of
    [nanoleaf-client.ts], with the properties of the design document
    stated and settled against it.

    Conventions of the embedding.
    - A JavaScript [number] is modelled as an exact rational ([Q]); the
      rounding of IEEE doubles is not modelled.  [Math.floor], [Math.round],
      [Math.max], [Math.min] and [%] are given their exact meaning.
    - A JavaScript [Map] is the ordered list of entry slots of ECMAScript's
      [[MapData]]: [delete] empties a slot, [set] of a new key appends one,
      and an iterator walks the slots by index, so that entries added
      while a loop runs are visited by it.
    - An [async] method is a function on an explicit state (the object's
      fields, the network, the requests sent so far) that returns the new
      state and either a value or the exception thrown.
    - The text of an animation descriptor (numbers separated by single
      spaces) is kept as the list of its numbers. *)

From Stdlib Require Import ZArith QArith Qround Lia Lqa String Ascii Bool List.
Import ListNotations.

Local Open Scope Q_scope.

(** ** JavaScript numbers and strings *)

Module JS.

Definition number := Q.

Definition ofNat (n : nat) : number := inject_Z (Z.of_nat n).

(** [a === b], [a < b], [a > b] on numbers. *)
Definition eqb (a b : number) : bool := Qeq_bool a b.
Definition ltb (a b : number) : bool := negb (Qle_bool b a).
Definition gtb (a b : number) : bool := ltb b a.

(** Truncation toward zero (the integer part of a number). *)
Definition trunc (x : number) : Z :=
  if Qle_bool 0 x then Qfloor x else Qceiling x.

(** [Math.round]: the nearest integer, ties toward plus infinity. *)
Definition Math_round (x : number) : number := inject_Z (Qfloor (x + (1 # 2))).

Definition Math_max (a b : number) : number := if ltb a b then b else a.
Definition Math_min (a b : number) : number := if ltb b a then b else a.
Definition Math_max3 (a b c : number) : number := Math_max (Math_max a b) c.
Definition Math_min3 (a b c : number) : number := Math_min (Math_min a b) c.

(** [Math.max(...xs)] and [Math.min(...xs)] of a non-empty array (every
    call in the source is guarded by a length test). *)
Definition Math_max_of (xs : list number) : number :=
  match xs with
  | [] => 0
  | x :: rest => fold_left Math_max rest x
  end.
Definition Math_min_of (xs : list number) : number :=
  match xs with
  | [] => 0
  | x :: rest => fold_left Math_min rest x
  end.

(** [a % n]: the remainder of the division truncated toward zero. *)
Definition rem (a n : number) : number := a - n * inject_Z (trunc (a / n)).

(** [s.toLowerCase()], on the ASCII letters. *)
Definition lowerChar (c : ascii) : ascii :=
  let n := nat_of_ascii c in
  if ((65 <=? n) && (n <=? 90))%nat then ascii_of_nat (n + 32) else c.

Fixpoint toLowerCase (s : string) : string :=
  match s with
  | EmptyString => EmptyString
  | String c rest => String (lowerChar c) (toLowerCase rest)
  end.

(** [xs.join(sep)]. *)
Fixpoint join (sep : string) (xs : list string) : string :=
  match xs with
  | [] => EmptyString
  | [x] => x
  | x :: rest => (x ++ sep ++ join sep rest)%string
  end.

(** Truthiness of a string: [""] is falsy. *)
Definition truthy (s : string) : bool := negb (String.eqb s EmptyString).

End JS.

Import JS.

(** ** A JavaScript [Map] *)

Module JSMap.

Section WithKey.

Variables K V : Type.
Variable keq : K -> K -> bool.

(** The entry slots in insertion order; [None] is a slot emptied by
    [delete]. *)
Definition t := list (option (K * V)).

Definition empty : t := [].

Definition holds (k : K) (slot : option (K * V)) : bool :=
  match slot with
  | Some (k', _) => keq k' k
  | None => false
  end.

Fixpoint get (k : K) (m : t) : option V :=
  match m with
  | [] => None
  | Some (k', v) :: rest => if keq k' k then Some v else get k rest
  | None :: rest => get k rest
  end.

Definition has (k : K) (m : t) : bool := existsb (holds k) m.

(** [m.set(k, v)]: the value of an existing key is replaced in its slot,
    a new key gets a new slot at the end. *)
Fixpoint set (k : K) (v : V) (m : t) : t :=
  match m with
  | [] => [Some (k, v)]
  | Some (k', v') :: rest =>
      if keq k' k then Some (k', v) :: rest else Some (k', v') :: set k v rest
  | None :: rest => None :: set k v rest
  end.

(** [m.delete(k)]: the slot of the key is emptied; the result tells
    whether there was one. *)
Fixpoint delete (k : K) (m : t) : bool * t :=
  match m with
  | [] => (false, [])
  | slot :: rest =>
      if holds k slot then (true, None :: rest)
      else let '(found, rest') := delete k rest in (found, slot :: rest')
  end.

Fixpoint entries (m : t) : list (K * V) :=
  match m with
  | [] => []
  | Some e :: rest => e :: entries rest
  | None :: rest => entries rest
  end.

Definition keys (m : t) : list K := map fst (entries m).
Definition values (m : t) : list V := map snd (entries m).
Definition size (m : t) : nat := List.length (entries m).

(** Assignment to a field of the object held in a slot. *)
Fixpoint update (index : nat) (v : V) (m : t) : t :=
  match m, index with
  | [], _ => []
  | Some (k, _) :: rest, O => Some (k, v) :: rest
  | None :: rest, O => None :: rest
  | slot :: rest, S i => slot :: update i v rest
  end.

(** The map with the slot at [index] emptied. *)
Fixpoint emptied (index : nat) (m : t) : t :=
  match m, index with
  | [], _ => []
  | _ :: rest, O => None :: rest
  | slot :: rest, S i => slot :: emptied i rest
  end.

End WithKey.

Arguments emptied {K V} index m.
Arguments empty {K V}.
Arguments get {K V} keq k m.
Arguments has {K V} keq k m.
Arguments set {K V} keq k v m.
Arguments delete {K V} keq k m.
Arguments entries {K V} m.
Arguments keys {K V} m.
Arguments values {K V} m.
Arguments size {K V} m.
Arguments update {K V} index v m.
Arguments holds {K V} keq k slot.

End JSMap.

(** ** Values of the client interface *)

Record RGBColor := mkRGB { r : number; g : number; b : number }.

Record HSBColor := mkHSB { hue : number; saturation : number; brightness : number }.

Record PanelPosition := mkPanel
  { panelId : number; x : number; y : number; o : number; shapeType : number }.

Record Bounds := mkBounds
  { minX : number; maxX : number; minY : number; maxY : number;
    width : number; height : number }.

Record PanelLayout := mkPanelLayout
  { numPanels : number; sideLength : number;
    positions : list PanelPosition; bounds : Bounds }.

Record Ranged := mkRanged { value : number; max : number; min : number }.

Record DeviceState := mkDeviceState
  { st_on : bool; st_brightness : Ranged; st_hue : Ranged; st_sat : Ranged;
    st_ct : Ranged; colorMode : string }.

Record Effects := mkEffects { effectsList : list string; select : string }.

Record Layout := mkLayout
  { lay_numPanels : number; lay_sideLength : number;
    positionData : list PanelPosition }.

Record DeviceInfo := mkDeviceInfo
  { info_name : string; serialNo : string; manufacturer : string;
    firmwareVersion : string; hardwareVersion : string; info_model : string;
    state : DeviceState; effects : Effects; panelLayout : Layout }.

(** The body of [PUT /state]: the fields that are present. *)
Record StatePayload := mkStatePayload
  { p_on : option bool; p_brightness : option number; p_hue : option number;
    p_sat : option number; p_ct : option number }.

Inductive Body :=
| StateBody (payload : StatePayload)
| SelectBody (effectName : string)
  (* write: command display, animType static, loop false, palette [] *)
| StaticWrite (animData : list number)
| ExtControlWrite (version : string)
| EmptyBody.

Inductive Method := GET | PUT (body : Body).

(** A request sent to the device at [host]. *)
Record Request := mkRequest { host : string; path : string; method : Method }.

(** ** The network

    What the devices answer is left open: a request to the device at an
    address either fails (timeout, refusal, non-2xx status) or succeeds,
    and the network moves to a new state. *)

Class Network := mkNetwork
  { World : Type;
    http_get_root : string -> string -> World -> World * option DeviceInfo;
    http_put : string -> string -> string -> Body -> World -> World * bool }.

(** ** Node's [Buffer] *)

Inductive Error :=
| RangeError          (* ERR_OUT_OF_RANGE, ERR_BUFFER_OUT_OF_BOUNDS *)
| HttpError.          (* a rejected axios request *)

Inductive Result (A : Type) :=
| Ok (a : A)
| Throw (e : Error).
Arguments Ok {A} a.
Arguments Throw {A} e.

Module Buffer.

(** A buffer is its bytes, each in 0..255. *)
Definition t := list Z.

Definition alloc (n : nat) : t := repeat 0%Z n.

Fixpoint store (buf : t) (offset : nat) (byte : Z) : t :=
  match buf, offset with
  | [], _ => []
  | _ :: rest, O => byte :: rest
  | x :: rest, S k => x :: store rest k byte
  end.

(** The byte a typed array keeps of a number: its integer part modulo 256. *)
Definition toUint8 (value : number) : Z := (trunc value mod 256)%Z.

(** [buf.writeUInt8(value, offset)]: a value outside 0..255 or an offset
    outside the buffer throws. *)
Definition writeUInt8 (buf : t) (value : number) (offset : nat) : Result t :=
  if gtb value 255 || ltb value 0 then Throw RangeError
  else if (List.length buf <=? offset)%nat then Throw RangeError
  else Ok (store buf offset (toUint8 value)).

(** [buf.writeUInt16BE(value, offset)]: high byte first. *)
Definition writeUInt16BE (buf : t) (value : number) (offset : nat) : Result t :=
  if gtb value 65535 || ltb value 0 then Throw RangeError
  else if (List.length buf <=? offset + 1)%nat then Throw RangeError
  else Ok (store (store buf offset (Z.shiftr (trunc value) 8 mod 256)%Z)
                 (offset + 1) (toUint8 value)).

End Buffer.

Definition rbind {A B} (m : Result A) (f : A -> Result B) : Result B :=
  match m with
  | Ok a => f a
  | Throw e => Throw e
  end.

Notation "x <-- m ;; k" := (rbind m (fun x => k))
  (at level 61, m at next level, right associativity).

(** ** nanoleaf-client.ts *)

Module NanoleafClient.

(** The fields of a [NanoleafClient] object. *)
Record t := mkClient
  { ip : string;
    authToken : string;
    streamingSocket : bool;
    protocolVersion : nat;
    panelIds : list number;
    cachedLightPanelIds : option (list number) }.

Definition withCache (c : t) (ids : list number) : t :=
  mkClient (ip c) (authToken c) (streamingSocket c) (protocolVersion c)
    (panelIds c) (Some ids).

(** [new NanoleafClient(ip, authToken)]. *)
Definition new (ip authToken : string) : t :=
  mkClient ip authToken false 2 [] None.

Definition PanelColors := JSMap.t number RGBColor.

Definition setPanel (id : number) (color : RGBColor) (m : PanelColors)
  : PanelColors := JSMap.set eqb id color m.

(** *** Colour model *)

Definition hsbToRgb (color : HSBColor) : RGBColor :=
  let h := hue color / 360 in
  let s := saturation color / 100 in
  let v := brightness color / 100 in
  let i := Qfloor (h * 6) in
  let f := h * 6 - inject_Z i in
  let p := v * (1 - s) in
  let q := v * (1 - f * s) in
  let t := v * (1 - (1 - f) * s) in
  let '(r, g, b) :=
    match Z.rem i 6 with
    | 0%Z => (v, t, p)
    | 1%Z => (q, v, p)
    | 2%Z => (p, v, t)
    | 3%Z => (p, q, v)
    | 4%Z => (t, p, v)
    | 5%Z => (v, p, q)
    | _ => (0, 0, 0)
    end in
  mkRGB (Math_round (r * 255)) (Math_round (g * 255)) (Math_round (b * 255)).

Definition rgbToHsb (color : RGBColor) : HSBColor :=
  let r := r color / 255 in
  let g := g color / 255 in
  let b := b color / 255 in
  let max := Math_max3 r g b in
  let min := Math_min3 r g b in
  let delta := max - min in
  let hue :=
    if negb (eqb delta 0) then
      let hue :=
        if eqb max r then rem ((g - b) / delta) 6
        else if eqb max g then (b - r) / delta + 2
        else (r - g) / delta + 4 in
      let hue := hue * 60 in
      if ltb hue 0 then hue + 360 else hue
    else 0 in
  let saturation := if eqb max 0 then 0 else (delta / max) * 100 in
  let brightness := max * 100 in
  mkHSB (Math_round hue) (Math_round saturation) (Math_round brightness).

(** *** Streaming codec *)

Definition v1Entry (buf : Buffer.t) (offset : nat) (e : number * RGBColor)
  : Result Buffer.t :=
  let '(panelId, color) := e in
  b1 <-- Buffer.writeUInt8 buf panelId offset ;;
  b2 <-- Buffer.writeUInt8 b1 1 (offset + 1) ;;
  b3 <-- Buffer.writeUInt8 b2 (r color) (offset + 2) ;;
  b4 <-- Buffer.writeUInt8 b3 (g color) (offset + 3) ;;
  b5 <-- Buffer.writeUInt8 b4 (b color) (offset + 4) ;;
  b6 <-- Buffer.writeUInt8 b5 0 (offset + 5) ;;
  Buffer.writeUInt8 b6 1 (offset + 6).

Fixpoint v1Loop (panels : list (number * RGBColor)) (buf : Buffer.t)
  (offset : nat) : Result Buffer.t :=
  match panels with
  | [] => Ok buf
  | e :: rest =>
      buf' <-- v1Entry buf offset e ;;
      v1Loop rest buf' (offset + 7)
  end.

Definition buildV1Packet (panelColors : PanelColors) : Result Buffer.t :=
  let panels := JSMap.entries panelColors in
  let buffer := Buffer.alloc (1 + List.length panels * 7) in
  buffer <-- Buffer.writeUInt8 buffer (ofNat (List.length panels)) 0 ;;
  v1Loop panels buffer 1.

Definition v2Entry (buf : Buffer.t) (offset : nat) (e : number * RGBColor)
  : Result Buffer.t :=
  let '(panelId, color) := e in
  b1 <-- Buffer.writeUInt16BE buf panelId offset ;;
  b2 <-- Buffer.writeUInt8 b1 (r color) (offset + 2) ;;
  b3 <-- Buffer.writeUInt8 b2 (g color) (offset + 3) ;;
  b4 <-- Buffer.writeUInt8 b3 (b color) (offset + 4) ;;
  b5 <-- Buffer.writeUInt8 b4 0 (offset + 5) ;;
  Buffer.writeUInt16BE b5 1 (offset + 6).

Fixpoint v2Loop (panels : list (number * RGBColor)) (buf : Buffer.t)
  (offset : nat) : Result Buffer.t :=
  match panels with
  | [] => Ok buf
  | e :: rest =>
      buf' <-- v2Entry buf offset e ;;
      v2Loop rest buf' (offset + 8)
  end.

Definition buildV2Packet (panelColors : PanelColors) : Result Buffer.t :=
  let panels := JSMap.entries panelColors in
  let buffer := Buffer.alloc (2 + List.length panels * 8) in
  buffer <-- Buffer.writeUInt16BE buffer (ofNat (List.length panels)) 0 ;;
  v2Loop panels buffer 2.

(** The map filled by [for (const id of ids) panelColors.set(id, color)]. *)
Definition solid (ids : list number) (color : RGBColor) : PanelColors :=
  fold_left (fun m id => setPanel id color m) ids JSMap.empty.

(** *** Methods that talk to the device *)

Section Methods.

Context {N : Network}.

(** The state a method runs in: the object, the network, and the
    requests sent so far (oldest first). *)
Record St := mkSt { this : t; world : World; sent : list Request }.

Definition M (A : Type) := St -> St * Result A.

Definition ret {A} (a : A) : M A := fun st => (st, Ok a).

Definition bind {A B} (m : M A) (f : A -> M B) : M B :=
  fun st =>
    match m st with
    | (st', Ok a) => f a st'
    | (st', Throw e) => (st', Throw e)
    end.

Notation "x <- m ;; k" := (bind m (fun x => k))
  (at level 61, m at next level, right associativity).
Notation "m ;;; k" := (bind m (fun _ => k))
  (at level 61, right associativity).

(** [this.client.get("/")]. *)
Definition client_get_root : M DeviceInfo := fun st =>
  let '(w, answer) := http_get_root (ip (this st)) (authToken (this st)) (world st) in
  let st' := mkSt (this st) w
               (sent st ++ [mkRequest (ip (this st)) "/" GET]) in
  match answer with
  | Some info => (st', Ok info)
  | None => (st', Throw HttpError)
  end.

(** [this.client.put(path, body)]. *)
Definition client_put (path : string) (body : Body) : M unit := fun st =>
  let '(w, ok) :=
    http_put (ip (this st)) (authToken (this st)) path body (world st) in
  let st' := mkSt (this st) w
               (sent st ++ [mkRequest (ip (this st)) path (PUT body)]) in
  if ok then (st', Ok tt) else (st', Throw HttpError).

Definition getCache : M (option (list number)) := fun st =>
  (st, Ok (cachedLightPanelIds (this st))).

(** [this.cachedLightPanelIds = ids]. *)
Definition setCache (ids : list number) : M unit := fun st =>
  (mkSt (withCache (this st) ids) (world st) (sent st), Ok tt).

Definition getInfo : M DeviceInfo := client_get_root.

Definition getPanelLayout : M PanelLayout :=
  info <- getInfo ;;
  let layout := panelLayout info in
  let positions := positionData layout in
  if (List.length positions =? 0)%nat then
    ret (mkPanelLayout 0 (lay_sideLength layout) []
           (mkBounds 0 0 0 0 0 0))
  else
    let xs := map x positions in
    let ys := map y positions in
    let minX := Math_min_of xs in
    let maxX := Math_max_of xs in
    let minY := Math_min_of ys in
    let maxY := Math_max_of ys in
    ret (mkPanelLayout (lay_numPanels layout) (lay_sideLength layout)
           positions
           (mkBounds minX maxX minY maxY (maxX - minX) (maxY - minY))).

(** The light panels of a layout: every panel but the controllers
    (shape type 12). *)
Definition lightPanelIds (positions : list PanelPosition) : list number :=
  map panelId (filter (fun p => negb (eqb (shapeType p) 12)) positions).

Definition getLightPanelIds : M (list number) :=
  cached <- getCache ;;
  match cached with
  | Some ids => ret ids
  | None =>
      layout <- getPanelLayout ;;
      let ids := lightPanelIds (positions layout) in
      setCache ids ;;;
      ret ids
  end.

(** The numbers of the animation descriptor of a static write. *)
Definition animData (panels : list (number * RGBColor)) : list number :=
  fold_left
    (fun acc '(panelId, color) =>
       acc ++ [panelId; 1; r color; g color; b color; 0; 1])
    panels [ofNat (List.length panels)].

Definition setPanelColors (panelColors : PanelColors) : M unit :=
  let panels := JSMap.entries panelColors in
  client_put "/effects" (StaticWrite (animData panels)).

Definition setAllPanelsColor (color : RGBColor) : M unit :=
  ids <- getLightPanelIds ;;
  let panelColors := solid ids color in
  setPanelColors panelColors.

Definition isStaticEffect (effect : string) : bool :=
  String.eqb effect "*Solid*" || String.eqb effect "*Static*".

Definition ensureStaticMode : M unit :=
  info <- getInfo ;;
  let effect := select (effects info) in
  if isStaticEffect effect then ret tt
  else
    let hsb := mkHSB (value (st_hue (state info)))
                     (value (st_sat (state info)))
                     (value (st_brightness (state info))) in
    let rgb := hsbToRgb hsb in
    setAllPanelsColor rgb.

Definition turnOn : M unit :=
  client_put "/state" (StateBody (mkStatePayload (Some true) None None None None)).

Definition turnOff : M unit :=
  client_put "/state" (StateBody (mkStatePayload (Some false) None None None None)).

Definition setBrightness (brightness : number) : M unit :=
  ensureStaticMode ;;;
  let value := Math_max 0 (Math_min 100 brightness) in
  client_put "/state"
    (StateBody (mkStatePayload None (Some value) None None None)).

Definition setHue (hue : number) : M unit :=
  ensureStaticMode ;;;
  let value := Math_max 0 (Math_min 360 hue) in
  client_put "/state"
    (StateBody (mkStatePayload None None (Some value) None None)).

Definition setSaturation (saturation : number) : M unit :=
  ensureStaticMode ;;;
  let value := Math_max 0 (Math_min 100 saturation) in
  client_put "/state"
    (StateBody (mkStatePayload None None None (Some value) None)).

Definition setColorTemperature (ct : number) : M unit :=
  ensureStaticMode ;;;
  let value := Math_max 1200 (Math_min 6500 ct) in
  client_put "/state"
    (StateBody (mkStatePayload None None None None (Some value))).

Definition setColor (color : RGBColor) : M unit := setAllPanelsColor color.

(** The argument of [setState]: each field may be absent. *)
Record StateArg := mkStateArg
  { a_on : option bool; a_brightness : option number; a_hue : option number;
    a_saturation : option number; a_ct : option number }.

Definition statePayload (state : StateArg) : StatePayload :=
  mkStatePayload
    (a_on state)
    (option_map (fun v => Math_max 0 (Math_min 100 v)) (a_brightness state))
    (option_map (fun v => Math_max 0 (Math_min 360 v)) (a_hue state))
    (option_map (fun v => Math_max 0 (Math_min 100 v)) (a_saturation state))
    (option_map (fun v => Math_max 1200 (Math_min 6500 v)) (a_ct state)).

Definition setState (state : StateArg) : M unit :=
  ensureStaticMode ;;;
  client_put "/state" (StateBody (statePayload state)).

(** The five operations that reconcile before they write. *)
Inductive StateOp :=
| OpBrightness (brightness : number)
| OpHue (hue : number)
| OpSaturation (saturation : number)
| OpColorTemperature (ct : number)
| OpState (state : StateArg).

Definition invoke (op : StateOp) : M unit :=
  match op with
  | OpBrightness v => setBrightness v
  | OpHue v => setHue v
  | OpSaturation v => setSaturation v
  | OpColorTemperature v => setColorTemperature v
  | OpState s => setState s
  end.

(** Calls of [setColor], one after the other; a call that throws does
    not keep the caller from making the next one. *)
Fixpoint setColors (colors : list RGBColor) (st : St) : St :=
  match colors with
  | [] => st
  | color :: rest => setColors rest (fst (setColor color st))
  end.

End Methods.

(** The requests of the protocol. *)
Definition readState (host : string) : Request := mkRequest host "/" GET.

Definition staticWrite (host : string) (ids : list number) (color : RGBColor)
  : Request :=
  mkRequest host "/effects"
    (PUT (StaticWrite (animData (JSMap.entries (solid ids color))))).

Definition stateWrite (host : string) (payload : StatePayload) : Request :=
  mkRequest host "/state" (PUT (StateBody payload)).

(** The state of a method once [GET /] has been answered. *)
Definition afterRead {N : Network} (st : St) (w : World) : St :=
  mkSt (this st) w (sent st ++ [readState (ip (this st))]).

(** The colour the device reports. *)
Definition reportedColor (info : DeviceInfo) : HSBColor :=
  mkHSB (value (st_hue (state info))) (value (st_sat (state info)))
        (value (st_brightness (state info))).

End NanoleafClient.

(** ** Reading an animation descriptor

    The panels a static write addresses and the colours it gives them:
    after the count, each group of seven numbers is a panel id, the
    frame count, red, green, blue, white and the transition time. *)

Module Descriptor.

Fixpoint groups (data : list number) : list (number * RGBColor) :=
  match data with
  | panelId :: _ :: red :: green :: blue :: _ :: _ :: rest =>
      (panelId, mkRGB red green blue) :: groups rest
  | _ => []
  end.

Definition painted (data : list number) : list (number * RGBColor) :=
  match data with
  | _ :: body => groups body
  | [] => []
  end.

Definition addressed (data : list number) : list number :=
  map fst (painted data).

(** The descriptor of a request, if it is a static write. *)
Definition ofRequest (req : Request) : list number :=
  match method req with
  | PUT (StaticWrite data) => data
  | _ => []
  end.

End Descriptor.

(** ** What the design document says of the written values *)

Module Clamp.

(** [x] clamped to the interval from [lo] to [hi]. *)
Definition clamp (lo hi x : number) : number :=
  if Qle_bool x lo then lo else if Qle_bool hi x then hi else x.

(** The fields a reconciling operation is to write. *)
Definition payload (op : NanoleafClient.StateOp) : StatePayload :=
  match op with
  | NanoleafClient.OpBrightness v =>
      mkStatePayload None (Some (clamp 0 100 v)) None None None
  | NanoleafClient.OpHue v =>
      mkStatePayload None None (Some (clamp 0 360 v)) None None
  | NanoleafClient.OpSaturation v =>
      mkStatePayload None None None (Some (clamp 0 100 v)) None
  | NanoleafClient.OpColorTemperature v =>
      mkStatePayload None None None None (Some (clamp 1200 6500 v))
  | NanoleafClient.OpState s =>
      mkStatePayload (NanoleafClient.a_on s)
        (option_map (clamp 0 100) (NanoleafClient.a_brightness s))
        (option_map (clamp 0 360) (NanoleafClient.a_hue s))
        (option_map (clamp 0 100) (NanoleafClient.a_saturation s))
        (option_map (clamp 1200 6500) (NanoleafClient.a_ct s))
  end.

End Clamp.

(** ** device-manager.ts *)

Module DeviceManager.

Record RegisteredDevice := mkDevice
  { alias : string;
    ip : string;
    authToken : string;
    client : NanoleafClient.t;
    name : option string;
    model : option string }.

Inductive ResolveResult :=
| Resolved (client : NanoleafClient.t) (device : RegisteredDevice)
| Failed (error : string).

(** The private field [devices]. *)
Definition t := JSMap.t string RegisteredDevice.

Definition empty : t := JSMap.empty.

(** [alias || ip]: an absent or empty alias gives the address. *)
Definition aliasOr (alias : option string) (ip : string) : string :=
  match alias with
  | Some a => if truthy a then a else ip
  | None => ip
  end.

Definition register (ip authToken : string) (alias : option string)
  (devices : t) : RegisteredDevice * t :=
  let key := toLowerCase (aliasOr alias ip) in
  let client := NanoleafClient.new ip authToken in
  let device := mkDevice (aliasOr alias ip) ip authToken client None None in
  (device, JSMap.set String.eqb key device devices).

Definition remove (alias : string) (devices : t) : bool * t :=
  JSMap.delete String.eqb (toLowerCase alias) devices.

Definition quote : string := String (ascii_of_nat 34) EmptyString.

Definition notConfigured : string :=
  "No devices registered. Set NANOLEAF_DEVICES env var or use add_device / discover_devices + create_auth_token to set up.".

Definition ambiguous (aliases : list string) : string :=
  ("Multiple devices registered. Specify which device: "
     ++ join ", " aliases)%string.

Definition notFound (deviceParam : string) (aliases : list string) : string :=
  ("Device " ++ quote ++ deviceParam ++ quote ++ " not found. Available: "
     ++ join ", " aliases)%string.

(** [!deviceParam]: the parameter is absent or the empty string. *)
Definition absent (deviceParam : option string) : bool :=
  match deviceParam with
  | Some s => negb (truthy s)
  | None => true
  end.

Definition resolve (deviceParam : option string) (devices : t)
  : ResolveResult :=
  if (JSMap.size devices =? 0)%nat then Failed notConfigured
  else if absent deviceParam then
    (* [size === 1] picks the only value, any other size is ambiguous *)
    match JSMap.values devices with
    | [device] => Resolved (client device) device
    | all => Failed (ambiguous (map alias all))
    end
  else
    let param := match deviceParam with Some s => s | None => EmptyString end in
    let lower := toLowerCase param in
    match JSMap.get String.eqb lower devices with
    | Some byAlias => Resolved (client byAlias) byAlias
    | None =>
        match find (fun device => String.eqb (ip device) param)
                   (JSMap.values devices) with
        | Some device => Resolved (client device) device
        | None => Failed (notFound param (map alias (JSMap.values devices)))
        end
    end.

Definition listAll (devices : t) : list RegisteredDevice :=
  JSMap.values devices.

Definition has (alias : string) (devices : t) : bool :=
  JSMap.has String.eqb (toLowerCase alias) devices.

Definition size (devices : t) : nat := JSMap.size devices.

Section Refresh.

Context {N : Network}.

(** The network and the requests sent so far. *)
Record Net := mkNet { world : World; sent : list Request }.

(** [device.client.getInfo()] on the client of a registered device. *)
Definition fetchInfo (device : RegisteredDevice) (net : Net)
  : Net * Result DeviceInfo :=
  let '(st, answer) :=
    NanoleafClient.getInfo
      (NanoleafClient.mkSt (client device) (world net) (sent net)) in
  (mkNet (NanoleafClient.world st) (NanoleafClient.sent st), answer).

(** [device.name = info.name; device.model = info.model]. *)
Definition setNameModel (device : RegisteredDevice) (info : DeviceInfo)
  : RegisteredDevice :=
  mkDevice (alias device) (ip device) (authToken device) (client device)
    (Some (info_name info)) (Some (info_model info)).

(** [device.alias = newAlias]. *)
Definition setAlias (device : RegisteredDevice) (newAlias : string)
  : RegisteredDevice :=
  mkDevice newAlias (ip device) (authToken device) (client device)
    (name device) (model device).

(** The body of the loop of [refreshNames], for the device held by the
    slot at [index]. *)
Definition refreshDevice (index : nat) (device : RegisteredDevice)
  (devices : t) (net : Net) : t * Net :=
  match fetchInfo device net with
  | (net', Ok info) =>
      let device1 := setNameModel device info in
      let devices1 := JSMap.update index device1 devices in
      if String.eqb (alias device1) (ip device1) && truthy (info_name info)
      then
        let oldKey := toLowerCase (ip device1) in
        let newAlias := info_name info in
        let newKey := toLowerCase newAlias in
        if negb (JSMap.has String.eqb newKey devices1) then
          let devices2 := snd (JSMap.delete String.eqb oldKey devices1) in
          let device2 := setAlias device1 newAlias in
          (JSMap.set String.eqb newKey device2 devices2, net')
        else (devices1, net')
      else (devices1, net')
  | (net', Throw _) => (devices, net')
  end.

(** The iteration over [this.devices.values()]: the iterator is at slot
    [index]; it ends when the index is past the last slot. *)
Fixpoint refreshLoop (fuel index : nat) (devices : t) (net : Net)
  : option (t * Net) :=
  match fuel with
  | O => None
  | S fuel' =>
      match nth_error devices index with
      | None => Some (devices, net)
      | Some None => refreshLoop fuel' (S index) devices net
      | Some (Some (_, device)) =>
          let '(devices', net') := refreshDevice index device devices net in
          refreshLoop fuel' (S index) devices' net'
      end
  end.

(** [refreshNames()]; [None] would be a loop that has not ended within
    the steps allowed, which [refreshNames_returns] excludes. *)
Definition refreshNames (devices : t) (net : Net) : option (t * Net) :=
  refreshLoop (2 * List.length devices + 1) 0 devices net.

End Refresh.

(** Every slot is keyed by the lower-case alias of its device, and no
    key occurs twice: what [register], [remove] and [refreshNames]
    maintain. *)
Definition keyed (devices : t) : Prop :=
  forall key device, In (key, device) (JSMap.entries devices) ->
    key = toLowerCase (alias device).

Definition wf (devices : t) : Prop :=
  keyed devices /\ NoDup (JSMap.keys devices).

(** *** What the design document says of the alias upgrade *)

(** The alias is still the raw address, the hardware reports a name,
    and the lower-case name is not a key yet. *)
Definition upgradable (devices : t) (device : RegisteredDevice)
  (info : DeviceInfo) : bool :=
  String.eqb (alias device) (ip device)
  && truthy (info_name info)
  && negb (JSMap.has String.eqb (toLowerCase (info_name info)) devices).

(** The slot a device is re-keyed to. *)
Definition rekeyed (device : RegisteredDevice) (info : DeviceInfo)
  : option (string * RegisteredDevice) :=
  Some (toLowerCase (info_name info),
        setAlias (setNameModel device info) (info_name info)).


End DeviceManager.

(** ** The second copy of nanoleaf-client.ts (the client with animations)

    Its packet builders and colour conversions, translated on their own. *)

Module NanoleafClient2.

Definition hsbToRgb (color : HSBColor) : RGBColor :=
  let h := hue color / 360 in
  let s := saturation color / 100 in
  let v := brightness color / 100 in
  let i := Qfloor (h * 6) in
  let f := h * 6 - inject_Z i in
  let p := v * (1 - s) in
  let q := v * (1 - f * s) in
  let t := v * (1 - (1 - f) * s) in
  let '(r, g, b) :=
    match Z.rem i 6 with
    | 0%Z => (v, t, p)
    | 1%Z => (q, v, p)
    | 2%Z => (p, v, t)
    | 3%Z => (p, q, v)
    | 4%Z => (t, p, v)
    | 5%Z => (v, p, q)
    | _ => (0, 0, 0)
    end in
  mkRGB (Math_round (r * 255)) (Math_round (g * 255)) (Math_round (b * 255)).

Definition rgbToHsb (color : RGBColor) : HSBColor :=
  let r := r color / 255 in
  let g := g color / 255 in
  let b := b color / 255 in
  let max := Math_max3 r g b in
  let min := Math_min3 r g b in
  let delta := max - min in
  let hue :=
    if negb (eqb delta 0) then
      let hue :=
        if eqb max r then rem ((g - b) / delta) 6
        else if eqb max g then (b - r) / delta + 2
        else (r - g) / delta + 4 in
      let hue := hue * 60 in
      if ltb hue 0 then hue + 360 else hue
    else 0 in
  let saturation := if eqb max 0 then 0 else (delta / max) * 100 in
  let brightness := max * 100 in
  mkHSB (Math_round hue) (Math_round saturation) (Math_round brightness).

Fixpoint v1Loop (panels : list (number * RGBColor)) (buf : Buffer.t)
  (offset : nat) : Result Buffer.t :=
  match panels with
  | [] => Ok buf
  | (panelId, color) :: rest =>
      b1 <-- Buffer.writeUInt8 buf panelId offset ;;
      b2 <-- Buffer.writeUInt8 b1 1 (offset + 1) ;;
      b3 <-- Buffer.writeUInt8 b2 (r color) (offset + 2) ;;
      b4 <-- Buffer.writeUInt8 b3 (g color) (offset + 3) ;;
      b5 <-- Buffer.writeUInt8 b4 (b color) (offset + 4) ;;
      b6 <-- Buffer.writeUInt8 b5 0 (offset + 5) ;;
      b7 <-- Buffer.writeUInt8 b6 1 (offset + 6) ;;
      v1Loop rest b7 (offset + 7)
  end.

Definition buildV1Packet (panelColors : JSMap.t number RGBColor)
  : Result Buffer.t :=
  let panels := JSMap.entries panelColors in
  let buffer := Buffer.alloc (1 + List.length panels * 7) in
  buffer <-- Buffer.writeUInt8 buffer (ofNat (List.length panels)) 0 ;;
  v1Loop panels buffer 1.

Fixpoint v2Loop (panels : list (number * RGBColor)) (buf : Buffer.t)
  (offset : nat) : Result Buffer.t :=
  match panels with
  | [] => Ok buf
  | (panelId, color) :: rest =>
      b1 <-- Buffer.writeUInt16BE buf panelId offset ;;
      b2 <-- Buffer.writeUInt8 b1 (r color) (offset + 2) ;;
      b3 <-- Buffer.writeUInt8 b2 (g color) (offset + 3) ;;
      b4 <-- Buffer.writeUInt8 b3 (b color) (offset + 4) ;;
      b5 <-- Buffer.writeUInt8 b4 0 (offset + 5) ;;
      b6 <-- Buffer.writeUInt16BE b5 1 (offset + 6) ;;
      v2Loop rest b6 (offset + 8)
  end.

Definition buildV2Packet (panelColors : JSMap.t number RGBColor)
  : Result Buffer.t :=
  let panels := JSMap.entries panelColors in
  let buffer := Buffer.alloc (2 + List.length panels * 8) in
  buffer <-- Buffer.writeUInt16BE buffer (ofNat (List.length panels)) 0 ;;
  v2Loop panels buffer 2.

End NanoleafClient2.

(** ** The wire formats, as the design document words them *)

Module Wire.

(** A whole number, and the integer it denotes. *)
Definition whole (q : number) : Prop := inject_Z (Qfloor q) == q.
Definition int (q : number) : Z := Qfloor q.

Definition uint8 (q : number) : Prop := whole q /\ 0 <= q <= 255.
Definition uint16 (q : number) : Prop := whole q /\ 0 <= q <= 65535.

Definition rgb8 (color : RGBColor) : Prop :=
  uint8 (r color) /\ uint8 (g color) /\ uint8 (b color).

(** The two bytes of a 16-bit value, high byte first. *)
Definition be16 (z : Z) : list Z := [z / 256; z mod 256]%Z.

(** V1 entry: panel id, frame count 1, red, green, blue, white 0,
    transition time 1. *)
Definition v1Entry (e : number * RGBColor) : list Z :=
  [int (fst e); 1; int (r (snd e)); int (g (snd e)); int (b (snd e)); 0; 1]%Z.


(** V2 entry: panel id (2 bytes), red, green, blue, white 0, transition
    time 1 (2 bytes). *)
Definition v2Entry (e : number * RGBColor) : list Z :=
  be16 (int (fst e))
    ++ [int (r (snd e)); int (g (snd e)); int (b (snd e)); 0%Z] ++ be16 1.




(** The entries an encoder can represent: panel id and channels within
    the width of their fields. *)
Definition fitsV1 (e : number * RGBColor) : Prop :=
  uint8 (fst e) /\ rgb8 (snd e).

Definition fitsV2 (e : number * RGBColor) : Prop :=
  uint16 (fst e) /\ rgb8 (snd e).




Definition onePanel : NanoleafClient.PanelColors :=
  NanoleafClient.setPanel 3 (mkRGB 1 2 3) JSMap.empty.


End Wire.

(** ** A simulated network

    One device per address; a device that is not listed does not answer.
    A static write selects the effect [*Static*], a state write stores
    the fields it carries. *)

Module Sim.

Definition SimWorld := list (string * DeviceInfo).

Fixpoint lookup (address : string) (w : SimWorld) : option DeviceInfo :=
  match w with
  | [] => None
  | (a, info) :: rest => if String.eqb a address then Some info else lookup address rest
  end.

Fixpoint replace (address : string) (info : DeviceInfo) (w : SimWorld)
  : SimWorld :=
  match w with
  | [] => []
  | (a, i) :: rest =>
      if String.eqb a address then (a, info) :: rest
      else (a, i) :: replace address info rest
  end.

Definition withValue (field : Ranged) (v : option number) : Ranged :=
  match v with
  | Some x => mkRanged x (max field) (min field)
  | None => field
  end.

Definition withEffect (info : DeviceInfo) (effect : string) : DeviceInfo :=
  mkDeviceInfo (info_name info) (serialNo info) (manufacturer info)
    (firmwareVersion info) (hardwareVersion info) (info_model info)
    (state info) (mkEffects (effectsList (effects info)) effect)
    (panelLayout info).

Definition withState (info : DeviceInfo) (p : StatePayload) : DeviceInfo :=
  let s := state info in
  mkDeviceInfo (info_name info) (serialNo info) (manufacturer info)
    (firmwareVersion info) (hardwareVersion info) (info_model info)
    (mkDeviceState
       (match p_on p with Some v => v | None => st_on s end)
       (withValue (st_brightness s) (p_brightness p))
       (withValue (st_hue s) (p_hue p))
       (withValue (st_sat s) (p_sat p))
       (withValue (st_ct s) (p_ct p))
       (colorMode s))
    (effects info) (panelLayout info).

Definition served (body : Body) (info : DeviceInfo) : DeviceInfo :=
  match body with
  | StateBody p => withState info p
  | SelectBody effect => withEffect info effect
  | StaticWrite _ => withEffect info "*Static*"
  | ExtControlWrite _ => info
  | EmptyBody => info
  end.

Definition net : Network :=
  mkNetwork SimWorld
    (fun address _ w => (w, lookup address w))
    (fun address _ _ body w =>
       match lookup address w with
       | Some info => (replace address (served body info) w, true)
       | None => (w, false)
       end).

(** A device with three light panels and a controller, showing the
    given effect with hue 200, saturation 80 and brightness 60. *)
Definition shapes (deviceName effect : string) : DeviceInfo :=
  mkDeviceInfo deviceName "S1" "Nanoleaf" "9.2.4" "1.4-0" "NL42"
    (mkDeviceState true (mkRanged 60 100 0) (mkRanged 200 360 0)
       (mkRanged 80 100 0) (mkRanged 4000 6500 1200) "effect")
    (mkEffects ["*Dynamic*"%string; "Northern Lights"%string] effect)
    (mkLayout 4 67
       [mkPanel 11 0 0 0 7; mkPanel 12 67 0 60 7;
        mkPanel 0 30 30 0 12; mkPanel 13 134 0 0 7]).

Definition address : string := "192.168.1.20".

Definition connection : NanoleafClient.t := NanoleafClient.new address "token".

(** A fresh connection to a device showing [effect]. *)
Definition start (effect : string) : @NanoleafClient.St net :=
  NanoleafClient.mkSt (N := net) connection
    [(address, shapes "Shapes 1A2B" effect)] [].

End Sim.

(** ** Resolution, as the design document words it *)

Module ResolveSpec.

Import DeviceManager.

Inductive Outcome :=
| Device (device : RegisteredDevice)
| NotConfigured
| AmbiguousSelection (aliases : list string)
| NotFound (aliases : list string).

(** The alias of the device matches the identifier, letter case aside. *)
Definition aliasMatches (identifier : string) (device : RegisteredDevice)
  : bool :=
  String.eqb (toLowerCase (alias device)) (toLowerCase identifier).

Definition ipMatches (identifier : string) (device : RegisteredDevice)
  : bool :=
  String.eqb (ip device) identifier.

(** [registered]: the registered devices, in the order of registration. *)
Definition resolve (identifier : option string)
  (registered : list RegisteredDevice) : Outcome :=
  match registered with
  | [] => NotConfigured
  | _ =>
      match identifier with
      | None =>
          match registered with
          | [device] => Device device
          | _ => AmbiguousSelection (map alias registered)
          end
      | Some id =>
          match find (aliasMatches id) registered with
          | Some device => Device device
          | None =>
              match find (ipMatches id) registered with
              | Some device => Device device
              | None => NotFound (map alias registered)
              end
          end
      end
  end.

(** The result of [DeviceManager.resolve] that stands for an outcome. *)
Definition result (identifier : option string) (o : Outcome) : ResolveResult :=
  match o with
  | Device device => Resolved (client device) device
  | NotConfigured => Failed notConfigured
  | AmbiguousSelection aliases => Failed (ambiguous aliases)
  | NotFound aliases =>
      Failed (notFound (match identifier with Some id => id | None => EmptyString end)
                aliases)
  end.

End ResolveSpec.

(** ** Sample registries *)

Module Samples.

Import DeviceManager.

Local Open Scope string_scope.

(** One device, registered as "Kitchen". *)
Definition kitchen : t :=
  snd (register "192.168.1.20" "tokenA" (Some "Kitchen") empty).

(** A second device, registered without an alias. *)
Definition kitchenAndLoft : t :=
  snd (register "192.168.1.21" "tokenB" None kitchen).


(** The network on which the second device answers, under the name
    "Loft Shapes", and the first does not. *)
Definition loftAnswers : @Net Sim.net :=
  mkNet (N := Sim.net)
    [("192.168.1.21", Sim.shapes "Loft Shapes" "*Dynamic*")] [].

End Samples.

(** ** The loop of [refreshNames], step by step *)

Module RefreshSteps.

Import DeviceManager.

(** The slots that may still be re-keyed: the alias is the address. *)
Definition candidate (slot : option (string * RegisteredDevice)) : bool :=
  match slot with
  | Some (_, device) => String.eqb (alias device) (ip device)
  | None => false
  end.

(** A bound on the steps the loop has left at slot [index]: the slots
    ahead, and one more visit for each of them that may be re-keyed. *)
Definition stepsLeft (index : nat) (devices : t) : nat :=
  List.length (skipn index devices)
  + List.length (filter candidate (skipn index devices)).

(** Registries reached from one another by bodies of the loop. *)
Inductive reaches {N : Network} : t -> t -> Prop :=
| reaches_refl devices : reaches devices devices
| reaches_step devices index key device net devices' :
    nth_error devices index = Some (Some (key, device)) ->
    reaches (fst (refreshDevice index device devices net)) devices' ->
    reaches devices devices'.

End RefreshSteps.

(** ** The hue wheel

    The six sectors of the hue, as weights: at the hue of [x] sixths of
    a turn, a colour of value [v] and saturation [s] has the channels
    [v * (1 - s * w)] for the weights [w] of red, green and blue. *)

Module Wheel.



(** A colour with whole channels. *)
Definition rgb (x y z : Z) : RGBColor :=
  mkRGB (inject_Z x) (inject_Z y) (inject_Z z).

End Wheel.


(** * Further definitions *)

From Stdlib Require Import Permutation.

(** ** What a registered device connects to *)

Module Inventory.

Import DeviceManager.

(** The address, the token and the connection of a device: what
    [refreshNames] never assigns. *)
Definition endpoint (device : RegisteredDevice)
  : string * string * NanoleafClient.t :=
  (ip device, authToken device, client device).

Definition endpoints (devices : t) : list (string * string * NanoleafClient.t) :=
  map endpoint (listAll devices).

(** The request of [getInfo] on the connection of a device. *)
Definition probe (device : RegisteredDevice) : Request :=
  mkRequest (NanoleafClient.ip (client device)) "/" GET.

(** A request of [getInfo]. *)
Definition isProbe (request : Request) : Prop :=
  path request = "/"%string /\ method request = GET.

(** The devices the loop of [refreshNames] has ahead at slot [index],
    and those of them whose alias is still the address. *)
Definition liveAhead (index : nat) (devices : t) : nat :=
  List.length (JSMap.entries (skipn index devices)).

Definition candidatesAhead (index : nat) (devices : t) : nat :=
  List.length (filter RefreshSteps.candidate (skipn index devices)).

End Inventory.

(** ** A network on which no device answers *)

Module Offline.

Definition net : Network :=
  mkNetwork unit
    (fun _ _ w => (w, None))
    (fun _ _ _ _ w => (w, false)).

Definition start : @DeviceManager.Net net :=
  DeviceManager.mkNet (N := net) tt [].

End Offline.

(** ** The registries a [DeviceManager] comes to hold

    The map of a [DeviceManager] is private: it starts empty and is
    changed by [register], [remove] and [refreshNames] only.  The
    devices it holds are shared with the callers, which assign the name
    and the model of a device just registered (the [add_device] tool and
    [POST /devices]) and call the methods of its client, which assign
    fields of the client (the cache of light panels, the streaming
    socket, the protocol version, the panel ids). *)

Module History.

Import DeviceManager.



End History.

(** ** nanoleaf-client.ts: streaming over UDP *)

Module Streaming.

Import NanoleafClient.

Definition STREAMING_PORT_V1 : Z := 60221.
Definition STREAMING_PORT_V2 : Z := 60222.

(** A datagram handed to [socket.send]. *)
Record Datagram := mkDatagram
  { payload : Buffer.t; port : Z; address : string }.

(** What [socket.send] reports to its callback is left open: an error
    or none, and the socket layer moves to a new state. *)
Class Udp := mkUdp
  { Air : Type;
    udp_send : Datagram -> Air -> Air * bool }.

(** How the promise of a method settles. *)
Inductive Failure :=
| Thrown (e : Error)      (* a rejected request, or a throwing write *)
| SendError.              (* the error reported by [socket.send] *)

Inductive Outcome (A : Type) :=
| Fulfilled (a : A)
| Rejected (f : Failure).

Arguments Fulfilled {A} a.
Arguments Rejected {A} f.

Definition withProtocolVersion (c : t) (version : nat) : t :=
  mkClient (ip c) (authToken c) (streamingSocket c) version
    (panelIds c) (cachedLightPanelIds c).

Definition withPanelIds (c : t) (ids : list number) : t :=
  mkClient (ip c) (authToken c) (streamingSocket c) (protocolVersion c)
    ids (cachedLightPanelIds c).

Definition withSocket (c : t) (socket : bool) : t :=
  mkClient (ip c) (authToken c) socket (protocolVersion c)
    (panelIds c) (cachedLightPanelIds c).

Section Methods.

Context {N : Network} {U : Udp}.

(** The state a streaming method runs in: the state of the HTTP
    methods, the socket layer, and the datagrams handed to the socket so
    far (oldest first). *)
Record St := mkSt
  { http : NanoleafClient.St; air : Air; handed : list Datagram }.

Definition M (A : Type) := St -> St * Outcome A.

Definition ret {A} (a : A) : M A := fun st => (st, Fulfilled a).

Definition bind {A B} (m : M A) (f : A -> M B) : M B :=
  fun st =>
    match m st with
    | (st', Fulfilled a) => f a st'
    | (st', Rejected e) => (st', Rejected e)
    end.

Notation "x <- m ;; k" := (bind m (fun x => k))
  (at level 61, m at next level, right associativity).
Notation "m ;;; k" := (bind m (fun _ => k))
  (at level 61, right associativity).

(** An HTTP method, awaited. *)
Definition lift {A} (m : NanoleafClient.M A) : M A := fun st =>
  let '(st', answer) := m (http st) in
  (mkSt st' (air st) (handed st),
   match answer with
   | Ok a => Fulfilled a
   | Throw e => Rejected (Thrown e)
   end).

(** A synchronous computation that may throw. *)
Definition liftResult {A} (answer : Result A) : M A := fun st =>
  (st,
   match answer with
   | Ok a => Fulfilled a
   | Throw e => Rejected (Thrown e)
   end).

Definition getThis : M t := fun st => (st, Fulfilled (this (http st))).

Definition setThis (c : t) : M unit := fun st =>
  (mkSt (NanoleafClient.mkSt c (world (http st)) (sent (http st)))
     (air st) (handed st),
   Fulfilled tt).

(** [this.streamingSocket.send(packet, port, this.ip, callback)]. *)
Definition socket_send (packet : Buffer.t) (port : Z) : M unit := fun st =>
  let datagram := mkDatagram packet port (ip (this (http st))) in
  let '(a, ok) := udp_send datagram (air st) in
  (mkSt (http st) a (handed st ++ [datagram]),
   if ok then Fulfilled tt else Rejected SendError).

Definition versionName (version : nat) : string :=
  if (version =? 1)%nat then "v1" else "v2".

Definition initializeStreaming : M unit :=
  info <- lift getInfo ;;
  c <- getThis ;;
  setThis (withProtocolVersion c
             (if String.eqb (info_model info) "NL22" then 1%nat else 2%nat)) ;;;
  layout <- lift getPanelLayout ;;
  c <- getThis ;;
  setThis (withPanelIds c (map panelId (positions layout))) ;;;
  c <- getThis ;;
  lift (client_put "/effects"
          (ExtControlWrite (versionName (protocolVersion c)))) ;;;
  c <- getThis ;;
  setThis (withSocket c true).

Definition streamColors (panelColors : PanelColors) : M unit :=
  c <- getThis ;;
  (if negb (streamingSocket c) then initializeStreaming else ret tt) ;;;
  c <- getThis ;;
  packet <- liftResult
              (if (protocolVersion c =? 1)%nat
               then buildV1Packet panelColors
               else buildV2Packet panelColors) ;;
  let port :=
    if (protocolVersion c =? 1)%nat then STREAMING_PORT_V1
    else STREAMING_PORT_V2 in
  socket_send packet port.

Definition streamSolidColor (color : RGBColor) : M unit :=
  c <- getThis ;;
  (if (List.length (panelIds c) =? 0)%nat then
     layout <- lift getPanelLayout ;;
     c <- getThis ;;
     setThis (withPanelIds c (map panelId (positions layout)))
   else ret tt) ;;;
  c <- getThis ;;
  streamColors (solid (panelIds c) color).

Definition stopStreaming : M unit :=
  c <- getThis ;;
  if streamingSocket c then setThis (withSocket c false) else ret tt.

(** The request that switches the device to external control. *)
Definition extControl (host : string) (version : nat) : Request :=
  mkRequest host "/effects" (PUT (ExtControlWrite (versionName version))).

(** The protocol version of a device: 1 for the model "NL22", else 2. *)
Definition versionOf (info : DeviceInfo) : nat :=
  if String.eqb (info_model info) "NL22" then 1%nat else 2%nat.

(** The panel ids of a device, controllers included. *)
Definition allPanelIds (info : DeviceInfo) : list number :=
  map panelId (positionData (panelLayout info)).

(** The packet of a protocol version. *)
Definition buildPacket (version : nat) (panelColors : PanelColors)
  : Result Buffer.t :=
  if (version =? 1)%nat then buildV1Packet panelColors
  else buildV2Packet panelColors.

Definition streamingPort (version : nat) : Z :=
  if (version =? 1)%nat then STREAMING_PORT_V1 else STREAMING_PORT_V2.

End Methods.

(** A socket layer that never reports an error. *)
Definition clear : Udp := mkUdp unit (fun _ a => (a, true)).

End Streaming.

(** Streaming states on the simulated network: a fresh connection to a
    device of four panels, and the same connection with its socket
    open. *)

Module StreamingSamples.

Definition closed : @Streaming.St Sim.net Streaming.clear :=
  Streaming.mkSt (N := Sim.net) (U := Streaming.clear)
    (Sim.start "*Dynamic*") tt [].

Definition opened : @Streaming.St Sim.net Streaming.clear :=
  Streaming.mkSt (N := Sim.net) (U := Streaming.clear)
    (NanoleafClient.mkSt (N := Sim.net)
       (Streaming.withSocket Sim.connection true)
       [(Sim.address, Sim.shapes "Shapes 1A2B" "*Dynamic*")] [])
    tt [].

End StreamingSamples.

(** ** The front ends: the MCP tools of http.ts and the routes of
    rest-api.ts that change the registry *)

Module Frontend.

Import DeviceManager.

(** An entry of the JSON array of NANOLEAF_DEVICES, and the body of
    [POST /devices]: each field a string, or absent. *)
Record DeviceFields := mkFields
  { f_ip : option string; f_authToken : option string;
    f_alias : option string }.

(** A field that is present and not empty. *)
Definition given (field : option string) : bool :=
  match field with
  | Some s => truthy s
  | None => false
  end.

Definition text (field : option string) : string :=
  match field with
  | Some s => s
  | None => EmptyString
  end.





Section Handlers.

Context {N : Network}.

(** [new NanoleafClient(ip, authToken).getInfo()]. *)
Definition testGetInfo (ip authToken : string) (net : Net)
  : Net * Result DeviceInfo :=
  let '(st, answer) :=
    NanoleafClient.getInfo
      (NanoleafClient.mkSt (NanoleafClient.new ip authToken)
         (world net) (sent net)) in
  (mkNet (NanoleafClient.world st) (NanoleafClient.sent st), answer).

(** [alias || info.name || ip]. *)
Definition finalAlias (alias : option string) (info : DeviceInfo)
  (ip : string) : string :=
  aliasOr alias (aliasOr (Some (info_name info)) ip).

(** [device.name = info.name; device.model = info.model] on the device
    [register] has returned: the object the map holds under its key. *)
Definition describe (device : RegisteredDevice) (info : DeviceInfo)
  (devices : t) : RegisteredDevice * t :=
  let device' := setNameModel device info in
  (device', JSMap.set String.eqb (toLowerCase (alias device)) device' devices).

(** *** The tool [add_device] *)

Inductive AddResult :=
| Registered (device : RegisteredDevice)
| AlreadyRegistered (finalAlias : string)
| CannotConnect (ip : string).

Definition add_device (ip authToken : string) (alias : option string)
  (devices : t) (net : Net) : t * Net * AddResult :=
  match testGetInfo ip authToken net with
  | (net', Ok info) =>
      let final := finalAlias alias info ip in
      if has final devices then (devices, net', AlreadyRegistered final)
      else
        let '(device, devices1) := register ip authToken (Some final) devices in
        let '(device', devices2) := describe device info devices1 in
        (devices2, net', Registered device')
  | (net', Throw _) => (devices, net', CannotConnect ip)
  end.

(** *** The route [POST /devices] *)

Inductive Response :=
| Created (device : RegisteredDevice)     (* 201 *)
| BadRequest                              (* 400 *)
| Conflict (finalAlias : string)          (* 409 *)
| BadGateway (ip : string).               (* 502 *)

Definition postDevices (body : DeviceFields) (devices : t) (net : Net)
  : t * Net * Response :=
  if negb (given (f_ip body)) || negb (given (f_authToken body))
  then (devices, net, BadRequest)
  else
    let ip := text (f_ip body) in
    let authToken := text (f_authToken body) in
    match testGetInfo ip authToken net with
    | (net', Ok info) =>
        let final := finalAlias (f_alias body) info ip in
        if has final devices then (devices, net', Conflict final)
        else
          let '(device, devices1) := register ip authToken (Some final) devices in
          let '(device', devices2) := describe device info devices1 in
          (devices2, net', Created device')
    | (net', Throw _) => (devices, net', BadGateway ip)
    end.

(** The status of a response. *)
Definition status (response : Response) : nat :=
  match response with
  | Created _ => 201
  | BadRequest => 400
  | Conflict _ => 409
  | BadGateway _ => 502
  end.

(** The answer of the tool that goes with a response of the route. *)
Definition asTool (response : Response) : option AddResult :=
  match response with
  | Created device => Some (Registered device)
  | BadRequest => None
  | Conflict final => Some (AlreadyRegistered final)
  | BadGateway ip => Some (CannotConnect ip)
  end.

End Handlers.

End Frontend.

(** ** nanoleaf-client.ts (the version with animations): plugin effects *)

Module Animation.

Inductive AnimationStyle := flow | wheel | fade | highlight | random | explode.
Inductive AnimationSpeed := very_slow | slow | medium | fast | very_fast.
Inductive AnimationDirection := left | right.

Record AnimationOptions := mkOptions
  { name : string;
    style : AnimationStyle;
    palette : list HSBColor;
    speed : option AnimationSpeed;
    direction : option AnimationDirection;
    opt_brightness : option number;
    loop : option bool }.

Definition PLUGIN_UUIDS (s : AnimationStyle) : string :=
  match s with
  | flow => "027842e4-e1d6-4a4c-a731-be74a1ebd4cf"
  | wheel => "6970681a-20b5-4c5e-8813-bdaebc4ee4fa"
  | fade => "b3fd723a-aae8-4c99-bf2b-087159e0ef53"
  | highlight => "70b7c636-6bf8-491f-89c1-f4103508d642"
  | random => "ba632d3e-9c2b-4413-a965-510c839b3f71"
  | explode => "713518c1-d560-47db-8991-de780af71d1e"
  end.

Record Timing := mkTiming { transTime : number; delayTime : number }.

Definition SPEED_MAPPINGS (s : AnimationSpeed) : Timing :=
  match s with
  | very_slow => mkTiming 100 100
  | slow => mkTiming 50 50
  | medium => mkTiming 25 25
  | fast => mkTiming 10 10
  | very_fast => mkTiming 3 3
  end.

(** A parameter with a default: [x = d] in a destructuring pattern. *)
Definition orDefault {A} (field : option A) (d : A) : A :=
  match field with
  | Some a => a
  | None => d
  end.

Record PaletteEntry := mkEntry
  { e_hue : number; e_saturation : number; e_brightness : number;
    probability : number }.

Inductive Value := Str (s : string) | Num (n : number).

Record PluginOption := mkOption { optionName : string; optionValue : Value }.

Definition directionName (d : AnimationDirection) : string :=
  match d with
  | left => "left"
  | right => "right"
  end.

Definition isRight (d : AnimationDirection) : bool :=
  match d with
  | right => true
  | left => false
  end.

(** The [write] object of a request to [/effects], or a selection. *)
Inductive EffectsBody :=
| AddWrite (animName pluginUuid : string) (palette : list PaletteEntry)
    (pluginOptions : list PluginOption) (loop : bool)
| DisplayWrite (pluginUuid : string) (palette : list PaletteEntry)
    (pluginOptions : list PluginOption) (loop : bool)
| DeleteWrite (animName : string)
| Select (effectName : string).

Record EffectsRequest := mkEffectsRequest
  { to : string; body : EffectsBody }.

(** What the device answers to [PUT /effects] is left open. *)
Class Device := mkDevice
  { World : Type;
    put_effects : string -> string -> EffectsBody -> World -> World * bool }.

Section Methods.

Context {D : Device}.

Record St := mkSt
  { ip : string; authToken : string; world : World;
    sent : list EffectsRequest }.

Definition M (A : Type) := St -> St * Result A.

Definition bind {A B} (m : M A) (f : A -> M B) : M B :=
  fun st =>
    match m st with
    | (st', Ok a) => f a st'
    | (st', Throw e) => (st', Throw e)
    end.

Notation "m ;;; k" := (bind m (fun _ => k))
  (at level 61, right associativity).

(** [this.client.put("/effects", body)]. *)
Definition client_put_effects (b : EffectsBody) : M unit := fun st =>
  let '(w, ok) := put_effects (ip st) (authToken st) b (world st) in
  let st' := mkSt (ip st) (authToken st) w
               (sent st ++ [mkEffectsRequest (ip st) b]) in
  if ok then (st', Ok tt) else (st', Throw HttpError).

Definition setEffect (effectName : string) : M unit :=
  client_put_effects (Select effectName).

Definition createAnimation (options : AnimationOptions) : M unit :=
  let name := name options in
  let style := style options in
  let palette := palette options in
  let speed := orDefault (speed options) medium in
  let direction := orDefault (direction options) right in
  let scale := orDefault (opt_brightness options) 100 in
  let loop := orDefault (loop options) true in
  let pluginUuid := PLUGIN_UUIDS style in
  let timing := SPEED_MAPPINGS speed in
  let paletteWithProb :=
    map (fun color =>
           mkEntry (hue color) (saturation color)
             (Math_round ((brightness color * scale) / 100))
             (Math_round (100 / ofNat (List.length palette))))
      palette in
  let pluginOptions :=
    match style with
    | flow =>
        [mkOption "linDirection" (Str (directionName direction));
         mkOption "transTime" (Num (transTime timing))]
    | wheel =>
        [mkOption "rotDirection"
           (Str (if isRight direction then "cw" else "ccw"));
         mkOption "transTime" (Num (transTime timing))]
    | _ =>
        [mkOption "transTime" (Num (transTime timing));
         mkOption "delayTime" (Num (delayTime timing))]
    end in
  client_put_effects
    (AddWrite name pluginUuid paletteWithProb pluginOptions loop) ;;;
  setEffect name.

(** [displayAnimation]: the options without the name; [loop] is not
    read. *)
Definition displayAnimation (options : AnimationOptions) : M unit :=
  let style := style options in
  let palette := palette options in
  let speed := orDefault (speed options) medium in
  let direction := orDefault (direction options) right in
  let scale := orDefault (opt_brightness options) 100 in
  let pluginUuid := PLUGIN_UUIDS style in
  let timing := SPEED_MAPPINGS speed in
  let paletteWithProb :=
    map (fun color =>
           mkEntry (hue color) (saturation color)
             (Math_round ((brightness color * scale) / 100))
             (Math_round (100 / ofNat (List.length palette))))
      palette in
  let pluginOptions :=
    match style with
    | flow =>
        [mkOption "linDirection" (Str (directionName direction));
         mkOption "transTime" (Num (transTime timing))]
    | wheel =>
        [mkOption "rotDirection"
           (Str (if isRight direction then "cw" else "ccw"));
         mkOption "transTime" (Num (transTime timing))]
    | _ =>
        [mkOption "transTime" (Num (transTime timing));
         mkOption "delayTime" (Num (delayTime timing))]
    end in
  client_put_effects
    (DisplayWrite pluginUuid paletteWithProb pluginOptions true).

Definition deleteAnimation (name : string) : M unit :=
  client_put_effects (DeleteWrite name).

End Methods.

(** *** What the two writes carry, by name *)

(** The palette of a write: each colour with its brightness scaled and
    the share of one colour among all. *)
Definition share (count : nat) : number := Math_round (100 / ofNat count).

Definition scaled (scale : number) (color : HSBColor) : number :=
  Math_round ((brightness color * scale) / 100).

Definition paletteOf (options : AnimationOptions) : list PaletteEntry :=
  map (fun color =>
         mkEntry (hue color) (saturation color)
           (scaled (orDefault (opt_brightness options) 100) color)
           (share (List.length (palette options))))
    (palette options).

(** The sum of the probabilities of a palette. *)
Definition total (entries : list PaletteEntry) : number :=
  fold_right (fun e acc => probability e + acc) 0 entries.

(** The palette, the plugin and the plugin options of a write. *)
Definition carried (b : EffectsBody)
  : option (string * list PaletteEntry * list PluginOption) :=
  match b with
  | AddWrite _ uuid entries options _ => Some (uuid, entries, options)
  | DisplayWrite uuid entries options _ => Some (uuid, entries, options)
  | _ => None
  end.

(** A device that accepts every write. *)
Definition accepting : Device :=
  mkDevice unit (fun _ _ _ w => (w, true)).

End Animation.

(** ** The tools and routes that take an array of panel colours, and
    the route [PUT /device/state] *)

Module Routes.

Import NanoleafClient.

(** An element of the array [panels]. *)
Record PanelColor := mkPanelColor
  { pc_panelId : number; pc_r : number; pc_g : number; pc_b : number }.

Definition colorOf (p : PanelColor) : RGBColor :=
  mkRGB (pc_r p) (pc_g p) (pc_b p).

(** [for (const panel of panels) panelColors.set(panel.panelId, {...})]
    on a new map. *)
Definition panelColorsOf (panels : list PanelColor) : PanelColors :=
  fold_left (fun m p => setPanel (pc_panelId p) (colorOf p) m)
    panels JSMap.empty.

(** The loop, from any map. *)
Definition filled (panels : list PanelColor) (m : PanelColors) : PanelColors :=
  fold_left (fun m p => setPanel (pc_panelId p) (colorOf p) m) panels m.

(** The body of [PUT /device/state]: each field a value of its type, or
    absent. *)
Record StateFields := mkStateFields
  { s_on : option bool; s_color : option string;
    s_brightness : option number; s_hue : option number;
    s_saturation : option number; s_ct : option number }.

Section StateRoute.

(** The colour parser the router is created with. *)
Variable parseColor : string -> option HSBColor.

(** [if (x === undefined) x = fallback]. *)
Definition orWhenAbsent (field : option number) (fallback : number)
  : option number :=
  match field with
  | Some v => Some v
  | None => Some fallback
  end.

(** The argument [PUT /device/state] calls [setState] with; [None] is
    the answer 400 for a colour that does not parse. *)
Definition stateOf (body : StateFields) : option StateArg :=
  let parsedHue := s_hue body in
  let parsedSat := s_saturation body in
  let parsedBri := s_brightness body in
  match s_color body with
  | Some color =>
      if truthy color then
        match parseColor color with
        | None => None
        | Some parsed =>
            Some (mkStateArg (s_on body)
                    (orWhenAbsent parsedBri (brightness parsed))
                    (orWhenAbsent parsedHue (hue parsed))
                    (orWhenAbsent parsedSat (saturation parsed))
                    (s_ct body))
        end
      else
        Some (mkStateArg (s_on body) parsedBri parsedHue parsedSat (s_ct body))
  | None =>
      Some (mkStateArg (s_on body) parsedBri parsedHue parsedSat (s_ct body))
  end.

End StateRoute.

End Routes.
(** * Properties *)

(** ** Colour conversions and packet builders of the two client files *)

Lemma rbind_ok_r {A} (m : Result A) : rbind m (fun a => Ok a) = m.
Proof. destruct m; reflexivity. Qed.

Lemma v1Loop_same panels : forall buf offset,
  NanoleafClient.v1Loop panels buf offset = NanoleafClient2.v1Loop panels buf offset.
Proof.
  induction panels as [|[panelId color] rest IH]; intros buf offset; simpl.
  - reflexivity.
  - unfold NanoleafClient.v1Entry.
    repeat match goal with
    | |- context [Buffer.writeUInt8 ?b ?v ?o] =>
        let w := fresh "w" in
        destruct (Buffer.writeUInt8 b v o) as [w|]; simpl; [|reflexivity]
    end.
    apply IH.
Qed.

Lemma v2Loop_same panels : forall buf offset,
  NanoleafClient.v2Loop panels buf offset = NanoleafClient2.v2Loop panels buf offset.
Proof.
  induction panels as [|[panelId color] rest IH]; intros buf offset; simpl.
  - reflexivity.
  - unfold NanoleafClient.v2Entry.
    destruct (Buffer.writeUInt16BE buf panelId offset) as [w|]; simpl; [|reflexivity].
    repeat match goal with
    | |- context [Buffer.writeUInt8 ?b ?v ?o] =>
        let w := fresh "w" in
        destruct (Buffer.writeUInt8 b v o) as [w|]; simpl; [|reflexivity]
    end.
    destruct (Buffer.writeUInt16BE _ 1 (offset + 6)) as [w'|]; simpl; [|reflexivity].
    apply IH.
Qed.

(** C9. The packet builders and the colour conversions of the two client
    files agree on every input: [buildV1Packet] and [buildV2Packet] give
    the same bytes (or throw the same exception), [hsbToRgb] and
    [rgbToHsb] the same values. *)
Theorem duplicate_implementations_agree :
  (forall panelColors,
     NanoleafClient.buildV1Packet panelColors = NanoleafClient2.buildV1Packet panelColors)
  /\ (forall panelColors,
     NanoleafClient.buildV2Packet panelColors = NanoleafClient2.buildV2Packet panelColors)
  /\ (forall color, NanoleafClient.hsbToRgb color = NanoleafClient2.hsbToRgb color)
  /\ (forall color, NanoleafClient.rgbToHsb color = NanoleafClient2.rgbToHsb color).
Proof.
  repeat split.
  - intros m. unfold NanoleafClient.buildV1Packet, NanoleafClient2.buildV1Packet.
    destruct (Buffer.writeUInt8 _ _ 0); simpl; [apply v1Loop_same | reflexivity].
  - intros m. unfold NanoleafClient.buildV2Packet, NanoleafClient2.buildV2Packet.
    destruct (Buffer.writeUInt16BE _ _ 0); simpl; [apply v2Loop_same | reflexivity].
Qed.

(** ** Streaming codec *)

Section CodecFacts.

Lemma ltb_spec a b : ltb a b = true <-> a < b.
Proof.
  unfold ltb. rewrite negb_true_iff.
  destruct (Qle_bool b a) eqn:E.
  - apply Qle_bool_iff in E. split; [discriminate | intros H; exfalso; lra].
  - split; [intros _|reflexivity].
    destruct (Qlt_le_dec a b) as [H|H]; [exact H|].
    apply Qle_bool_iff in H. congruence.
Qed.

Lemma ltb_false a b : ltb a b = false <-> b <= a.
Proof.
  destruct (ltb a b) eqn:E.
  - apply ltb_spec in E. split; [discriminate | intros H; exfalso; lra].
  - split; [intros _|reflexivity].
    destruct (Qlt_le_dec a b) as [H|H]; [|exact H].
    apply ltb_spec in H. congruence.
Qed.






Lemma store_length buf : forall k byte,
  List.length (Buffer.store buf k byte) = List.length buf.
Proof.
  induction buf as [|x buf IH]; intros [|k] byte; simpl; auto.
Qed.



End CodecFacts.

Section CodecProofs.



End CodecProofs.

Section CodecProofs2.





Lemma flat_map_length_const {A B} (f : A -> list B) k xs :
  (forall a, List.length (f a) = k) ->
  List.length (flat_map f xs) = (List.length xs * k)%nat.
Proof.
  intros Hk. induction xs as [|a xs IH]; simpl.
  - reflexivity.
  - rewrite length_app, Hk, IH. reflexivity.
Qed.

End CodecProofs2.

Section CodecTheorems.



Lemma fitsV1_fitsV2 e : Wire.fitsV1 e -> Wire.fitsV2 e.
Proof.
  intros [[Hw [H0 H1]] Hc]. split; [|exact Hc].
  split; [exact Hw | split; [exact H0 | lra]].
Qed.

End CodecTheorems.




(** ** Device connection: what a method sends *)

Section ClientRuns.

Context {N : Network}.

Import NanoleafClient.

Lemma client_put_run path body st :
  client_put path body st
  = (mkSt (this st)
       (fst (http_put (ip (this st)) (authToken (this st)) path body (world st)))
       (sent st ++ [mkRequest (ip (this st)) path (PUT body)]),
     if snd (http_put (ip (this st)) (authToken (this st)) path body (world st))
     then Ok tt else Throw HttpError).
Proof.
  unfold client_put.
  destruct (http_put _ _ _ _ _) as [w [|]]; reflexivity.
Qed.

Lemma client_put_sent path body st :
  sent (fst (client_put path body st))
  = sent st ++ [mkRequest (ip (this st)) path (PUT body)].
Proof. rewrite client_put_run. reflexivity. Qed.

Lemma client_put_this path body st :
  this (fst (client_put path body st)) = this st.
Proof. rewrite client_put_run. reflexivity. Qed.

Lemma getInfo_run st :
  getInfo st
  = (afterRead st (fst (http_get_root (ip (this st)) (authToken (this st)) (world st))),
     match snd (http_get_root (ip (this st)) (authToken (this st)) (world st)) with
     | Some info => Ok info
     | None => Throw HttpError
     end).
Proof.
  unfold getInfo, client_get_root, afterRead, readState.
  destruct (http_get_root _ _ _) as [w [info|]]; reflexivity.
Qed.

Lemma getPanelLayout_positions st w info :
  http_get_root (ip (this st)) (authToken (this st)) (world st) = (w, Some info) ->
  exists layout,
    getPanelLayout st = (afterRead st w, Ok layout)
    /\ positions layout = positionData (panelLayout info).
Proof.
  intros H. unfold getPanelLayout, bind. rewrite getInfo_run, H. simpl.
  destruct (positionData (panelLayout info)) eqn:E; simpl.
  - eexists. split; reflexivity.
  - eexists. split; reflexivity.
Qed.


(** [setAllPanelsColor] with the light panels already known: one write. *)
Lemma setAllPanelsColor_cached color st ids :
  cachedLightPanelIds (this st) = Some ids ->
  setAllPanelsColor color st
  = client_put "/effects"
      (StaticWrite (animData (JSMap.entries (solid ids color)))) st.
Proof.
  intros H. unfold setAllPanelsColor, getLightPanelIds, bind, getCache.
  rewrite H. reflexivity.
Qed.

(** [setAllPanelsColor] on a connection that does not know its light
    panels yet: the layout is fetched and kept, then the write is sent. *)
Lemma setAllPanelsColor_fresh color st w info :
  cachedLightPanelIds (this st) = None ->
  http_get_root (ip (this st)) (authToken (this st)) (world st) = (w, Some info) ->
  let ids := lightPanelIds (positionData (panelLayout info)) in
  setAllPanelsColor color st
  = client_put "/effects"
      (StaticWrite (animData (JSMap.entries (solid ids color))))
      (mkSt (withCache (this st) ids) w
         (sent st ++ [readState (ip (this st))])).
Proof.
  intros Hc Hget ids.
  destruct (getPanelLayout_positions st w info Hget) as [layout [Hl Hp]].
  unfold setAllPanelsColor, getLightPanelIds, bind, getCache.
  rewrite Hc, Hl. simpl. rewrite Hp. reflexivity.
Qed.


Lemma ensureStaticMode_unreachable st w :
  http_get_root (ip (this st)) (authToken (this st)) (world st) = (w, None) ->
  ensureStaticMode st = (afterRead st w, Throw HttpError).
Proof.
  intros H. unfold ensureStaticMode, bind. rewrite getInfo_run, H. reflexivity.
Qed.

Lemma ensureStaticMode_static st w info :
  http_get_root (ip (this st)) (authToken (this st)) (world st) = (w, Some info) ->
  isStaticEffect (select (effects info)) = true ->
  ensureStaticMode st = (afterRead st w, Ok tt).
Proof.
  intros H Hs. unfold ensureStaticMode, bind. rewrite getInfo_run, H. simpl.
  rewrite Hs. reflexivity.
Qed.

Lemma ensureStaticMode_animated st w info :
  http_get_root (ip (this st)) (authToken (this st)) (world st) = (w, Some info) ->
  isStaticEffect (select (effects info)) = false ->
  ensureStaticMode st
  = setAllPanelsColor (hsbToRgb (reportedColor info)) (afterRead st w).
Proof.
  intros H Hs. unfold ensureStaticMode, bind. rewrite getInfo_run, H. simpl.
  rewrite Hs. reflexivity.
Qed.

End ClientRuns.

Section Reconciler.

Context {N : Network}.

Import NanoleafClient.

Lemma clamp_eq lo hi x :
  lo < hi -> Math_max lo (Math_min hi x) = Clamp.clamp lo hi x.
Proof.
  intros Hlh. unfold Math_max, Math_min, Clamp.clamp.
  destruct (Qle_bool x lo) eqn:E1.
  - apply Qle_bool_iff in E1.
    assert (H1 : ltb x hi = true) by (apply ltb_spec; lra).
    rewrite H1.
    assert (H2 : ltb lo x = false) by (apply ltb_false; exact E1).
    rewrite H2. reflexivity.
  - assert (Hlo : lo < x).
    { destruct (Qlt_le_dec lo x) as [H|H]; [exact H|].
      apply Qle_bool_iff in H. congruence. }
    destruct (Qle_bool hi x) eqn:E2.
    + apply Qle_bool_iff in E2.
      assert (H1 : ltb x hi = false) by (apply ltb_false; exact E2).
      rewrite H1.
      assert (H2 : ltb lo hi = true) by (apply ltb_spec; exact Hlh).
      rewrite H2. reflexivity.
    + assert (H1 : ltb x hi = true).
      { unfold ltb. rewrite E2. reflexivity. }
      rewrite H1.
      assert (H2 : ltb lo x = true) by (apply ltb_spec; exact Hlo).
      rewrite H2. reflexivity.
Qed.

Lemma option_map_clamp lo hi v :
  lo < hi ->
  option_map (fun x => Math_max lo (Math_min hi x)) v
  = option_map (Clamp.clamp lo hi) v.
Proof.
  intros H. destruct v; simpl; [rewrite clamp_eq by exact H|]; reflexivity.
Qed.

(** Each of the five operations is the reconciliation followed by the
    write of its fields. *)
Lemma invoke_shape op :
  invoke op
  = bind ensureStaticMode
      (fun _ => client_put "/state" (StateBody (Clamp.payload op))).
Proof.
  destruct op as [v|v|v|v|s]; simpl;
    unfold setBrightness, setHue, setSaturation, setColorTemperature, setState,
      statePayload;
    rewrite ?clamp_eq by lra; try reflexivity.
  rewrite !option_map_clamp by lra. reflexivity.
Qed.

End Reconciler.

Section ReconcilerTheorem.

Context {N : Network}.

Import NanoleafClient.


End ReconcilerTheorem.

(** The reconciler on the simulated device: with [*Dynamic*] selected and
    hue 200, saturation 80, brightness 60, [setBrightness(40)] reads the
    state, fetches the layout, freezes the colour (31, 112, 153) on the
    three light panels and then writes brightness 40; with [*Static*]
    selected it reads the state and writes brightness 40. *)
Example reconciler_on_simulated_device :
  NanoleafClient.sent (fst (NanoleafClient.setBrightness 40 (Sim.start "*Dynamic*")))
  = [ NanoleafClient.readState Sim.address;
      NanoleafClient.readState Sim.address;
      NanoleafClient.staticWrite Sim.address [11; 12; 13] (mkRGB 31 112 153);
      NanoleafClient.stateWrite Sim.address
        (mkStatePayload None (Some 40) None None None) ]
  /\ NanoleafClient.sent (fst (NanoleafClient.setBrightness 40 (Sim.start "*Static*")))
  = [ NanoleafClient.readState Sim.address;
      NanoleafClient.stateWrite Sim.address
        (mkStatePayload None (Some 40) None None None) ].
Proof. split; vm_compute; reflexivity. Qed.

Section Clamping.

Context {N : Network}.

Import NanoleafClient.



End Clamping.


Example clamped_writes_on_simulated_device :
  NanoleafClient.sent (fst (NanoleafClient.setHue 400 (Sim.start "*Static*")))
  = [ NanoleafClient.readState Sim.address;
      NanoleafClient.stateWrite Sim.address
        (mkStatePayload None None (Some 360) None None) ]
  /\ NanoleafClient.sent
       (fst (NanoleafClient.setColorTemperature 100 (Sim.start "*Static*")))
  = [ NanoleafClient.readState Sim.address;
      NanoleafClient.stateWrite Sim.address
        (mkStatePayload None None None None (Some 1200)) ]
  /\ NanoleafClient.sent
       (fst (NanoleafClient.setBrightness (-5) (Sim.start "*Static*")))
  = [ NanoleafClient.readState Sim.address;
      NanoleafClient.stateWrite Sim.address
        (mkStatePayload None (Some 0) None None None) ].
Proof. repeat split. Qed.

(** ** Whole-device colour writes *)

Section PanelMaps.

Import NanoleafClient.

Lemma eqb_refl k : eqb k k = true.
Proof. apply Qeq_bool_iff. reflexivity. Qed.

Lemma setPanel_keys id color m k :
  In k (JSMap.keys (setPanel id color m)) -> In k (JSMap.keys m) \/ k = id.
Proof.
  unfold setPanel, JSMap.keys.
  induction m as [|[[k' v']|] rest IH]; simpl.
  - intros [H|[]]. right. symmetry. exact H.
  - destruct (eqb k' id); simpl.
    + intros H. left. exact H.
    + intros [H|H]; [left; left; exact H|].
      destruct (IH H) as [H'|H']; [left; right; exact H'|right; exact H'].
  - exact IH.
Qed.

Lemma setPanel_keeps id color m k :
  In k (JSMap.keys m) -> In k (JSMap.keys (setPanel id color m)).
Proof.
  unfold setPanel, JSMap.keys.
  induction m as [|[[k' v']|] rest IH]; simpl.
  - intros [].
  - destruct (eqb k' id); simpl.
    + intros H. exact H.
    + intros [H|H]; [left; exact H|right; exact (IH H)].
  - exact IH.
Qed.

Lemma setPanel_covers id color m :
  exists k, In k (JSMap.keys (setPanel id color m)) /\ eqb k id = true.
Proof.
  unfold setPanel, JSMap.keys.
  induction m as [|[[k' v']|] rest IH]; simpl.
  - exists id. split; [left; reflexivity | apply eqb_refl].
  - destruct (eqb k' id) eqn:E; simpl.
    + exists k'. split; [left; reflexivity | exact E].
    + destruct IH as [k [Hin Hk]]. exists k. split; [right; exact Hin | exact Hk].
  - exact IH.
Qed.

Lemma setPanel_values id color m :
  Forall (fun e => snd e = color) (JSMap.entries m) ->
  Forall (fun e => snd e = color) (JSMap.entries (setPanel id color m)).
Proof.
  unfold setPanel.
  induction m as [|[[k' v']|] rest IH]; simpl; intros H.
  - repeat constructor.
  - apply Forall_cons_iff in H. destruct H as [Hv Hrest].
    destruct (eqb k' id); simpl.
    + constructor; [reflexivity | exact Hrest].
    + constructor; [exact Hv | exact (IH Hrest)].
  - exact (IH H).
Qed.

Lemma fill_keys color ids : forall m k,
  In k (JSMap.keys (fold_left (fun m id => setPanel id color m) ids m)) ->
  In k (JSMap.keys m) \/ In k ids.
Proof.
  induction ids as [|id ids IH]; intros m k; simpl.
  - intros H. left. exact H.
  - intros H. destruct (IH _ _ H) as [H'|H'].
    + destruct (setPanel_keys _ _ _ _ H') as [H''|H''];
        [left; exact H'' | right; left; symmetry; exact H''].
    + right. right. exact H'.
Qed.

Lemma fill_keeps color ids : forall m k,
  In k (JSMap.keys m) ->
  In k (JSMap.keys (fold_left (fun m id => setPanel id color m) ids m)).
Proof.
  induction ids as [|id ids IH]; intros m k H; simpl.
  - exact H.
  - apply IH. apply setPanel_keeps. exact H.
Qed.

Lemma fill_covers color ids : forall m id,
  In id ids ->
  exists k,
    In k (JSMap.keys (fold_left (fun m id => setPanel id color m) ids m))
    /\ eqb k id = true.
Proof.
  induction ids as [|id' ids IH]; intros m id; simpl.
  - intros [].
  - intros [<-|H].
    + destruct (setPanel_covers id' color m) as [k [Hin Hk]].
      exists k. split; [apply fill_keeps; exact Hin | exact Hk].
    + apply IH. exact H.
Qed.

Lemma fill_values color ids : forall m,
  Forall (fun e => snd e = color) (JSMap.entries m) ->
  Forall (fun e => snd e = color)
    (JSMap.entries (fold_left (fun m id => setPanel id color m) ids m)).
Proof.
  induction ids as [|id ids IH]; intros m H; simpl.
  - exact H.
  - apply IH. apply setPanel_values. exact H.
Qed.

Lemma animData_fold panels : forall acc,
  fold_left
    (fun acc '(panelId, color) =>
       acc ++ [panelId; 1; r color; g color; b color; 0; 1])
    panels acc
  = acc ++ flat_map
             (fun e => [fst e; 1; r (snd e); g (snd e); b (snd e); 0; 1])
             panels.
Proof.
  induction panels as [|[id c] rest IH]; intros acc; simpl.
  - rewrite app_nil_r. reflexivity.
  - rewrite IH, <- app_assoc. reflexivity.
Qed.

(** The descriptor is the count followed by the seven numbers of each
    entry. *)
Lemma animData_flat panels :
  animData panels
  = ofNat (List.length panels)
    :: flat_map (fun e => [fst e; 1; r (snd e); g (snd e); b (snd e); 0; 1])
         panels.
Proof. unfold animData. rewrite animData_fold. reflexivity. Qed.

Lemma painted_animData panels :
  Descriptor.painted (animData panels) = panels.
Proof.
  rewrite animData_flat. simpl.
  induction panels as [|[id [cr cg cb]] rest IH]; simpl.
  - reflexivity.
  - rewrite IH. reflexivity.
Qed.

End PanelMaps.

Section ColourWrites.

Context {N : Network}.

Import NanoleafClient.

Lemma lightPanelIds_spec layout id :
  In id (lightPanelIds layout)
  <-> exists p, In p layout /\ ~ shapeType p == 12 /\ panelId p = id.
Proof.
  unfold lightPanelIds. rewrite in_map_iff. split.
  - intros [p [Hid Hin]]. apply filter_In in Hin. destruct Hin as [Hin Hs].
    exists p. split; [exact Hin|split; [|exact Hid]].
    intros Heq. apply Qeq_bool_iff in Heq. unfold eqb in Hs.
    rewrite Heq in Hs. discriminate.
  - intros [p [Hin [Hs Hid]]]. exists p. split; [exact Hid|].
    apply filter_In. split; [exact Hin|].
    unfold eqb. destruct (Qeq_bool (shapeType p) 12) eqn:E; [|reflexivity].
    apply Qeq_bool_iff in E. contradiction.
Qed.

Lemma addressed_staticWrite host ids color :
  Descriptor.addressed (Descriptor.ofRequest (staticWrite host ids color))
  = JSMap.keys (solid ids color).
Proof.
  unfold Descriptor.addressed, staticWrite, Descriptor.ofRequest. simpl.
  rewrite painted_animData. reflexivity.
Qed.

(** A write to all panels on a connection that knows its light panels
    sends the one static write and leaves the connection as it is. *)
Lemma setColor_cached color st ids :
  cachedLightPanelIds (this st) = Some ids ->
  sent (fst (setColor color st))
  = sent st ++ [staticWrite (ip (this st)) ids color]
  /\ this (fst (setColor color st)) = this st.
Proof.
  intros Hc. unfold setColor.
  rewrite (setAllPanelsColor_cached color st ids Hc), client_put_run.
  split; reflexivity.
Qed.

Lemma setColors_cached colors : forall st ids,
  cachedLightPanelIds (this st) = Some ids ->
  sent (setColors colors st)
  = sent st ++ map (staticWrite (ip (this st)) ids) colors
  /\ this (setColors colors st) = this st.
Proof.
  induction colors as [|color rest IH]; intros st ids Hc; simpl.
  - rewrite app_nil_r. split; reflexivity.
  - destruct (setColor_cached color st ids Hc) as [Hs Ht].
    assert (Hc' : cachedLightPanelIds (this (fst (setColor color st))) = Some ids)
      by (rewrite Ht; exact Hc).
    destruct (IH _ ids Hc') as [Hs' Ht'].
    rewrite Hs', Ht', Hs, Ht, <- app_assoc. split; reflexivity.
Qed.

(** The reconciling operations leave a connection that knows its light
    panels as it is. *)
Lemma invoke_keeps_connection op st ids :
  cachedLightPanelIds (this st) = Some ids ->
  this (fst (invoke op st)) = this st.
Proof.
  intros Hc. rewrite invoke_shape. unfold bind.
  assert (H : this (fst (ensureStaticMode st)) = this st).
  { destruct (http_get_root (ip (this st)) (authToken (this st)) (world st))
      as [w1 [info|]] eqn:Hget.
    - destruct (isStaticEffect (select (effects info))) eqn:Hs.
      + rewrite (ensureStaticMode_static st w1 info Hget Hs). reflexivity.
      + rewrite (ensureStaticMode_animated st w1 info Hget Hs).
        rewrite (setAllPanelsColor_cached _ (afterRead st w1) ids Hc).
        rewrite client_put_run. reflexivity.
    - rewrite (ensureStaticMode_unreachable st w1 Hget). reflexivity. }
  destruct (ensureStaticMode st) as [st1 [[]|e]]; simpl in *.
  - rewrite client_put_this. exact H.
  - exact H.
Qed.

(** C8. On a connection that has not written to all panels yet, a
    [setColor] whose layout fetch is answered sends a static write that
    addresses the panels of that layout whose shape type is not 12, all
    of them and no other, each with the given colour, and keeps their
    ids; from then on every [setColor] on the connection sends its write
    to those same ids without fetching a layout, and neither it nor a
    reconciling operation changes the ids kept. *)
Theorem controller_panel_exclusion (st : St) (color : RGBColor)
  (w : World) (info : DeviceInfo) :
  cachedLightPanelIds (this st) = None ->
  http_get_root (ip (this st)) (authToken (this st)) (world st) = (w, Some info) ->
  let host := ip (this st) in
  let layout := positionData (panelLayout info) in
  let ids := lightPanelIds layout in
  let write := staticWrite host ids color in
  let first := fst (setColor color st) in
  sent first = sent st ++ [readState host; write]
  /\ (forall id, In id (Descriptor.addressed (Descriptor.ofRequest write)) ->
        exists p, In p layout /\ ~ shapeType p == 12 /\ panelId p = id)
  /\ (forall p, In p layout -> ~ shapeType p == 12 ->
        exists id, In id (Descriptor.addressed (Descriptor.ofRequest write))
                   /\ id == panelId p)
  /\ Forall (fun e => snd e = color)
       (Descriptor.painted (Descriptor.ofRequest write))
  /\ cachedLightPanelIds (this first) = Some ids
  /\ (forall later,
        cachedLightPanelIds (this later) = Some ids ->
        forall color',
          sent (fst (setColor color' later))
          = sent later ++ [staticWrite (ip (this later)) ids color']
          /\ this (fst (setColor color' later)) = this later)
  /\ (forall later op,
        cachedLightPanelIds (this later) = Some ids ->
        this (fst (invoke op later)) = this later)
  /\ (forall colors,
        sent (setColors colors first)
        = sent first ++ map (staticWrite host ids) colors
        /\ cachedLightPanelIds (this (setColors colors first)) = Some ids).
Proof.
  intros Hc Hget host layout ids write first.
  assert (Hfirst : setColor color st
                   = client_put "/effects"
                       (StaticWrite (animData (JSMap.entries (solid ids color))))
                       (mkSt (withCache (this st) ids) w
                          (sent st ++ [readState host])))
    by (exact (setAllPanelsColor_fresh color st w info Hc Hget)).
  assert (Hsent : sent first = sent st ++ [readState host; write]).
  { unfold first. rewrite Hfirst, client_put_run. simpl.
    rewrite <- app_assoc. reflexivity. }
  assert (Hthis : this first = withCache (this st) ids).
  { unfold first. rewrite Hfirst, client_put_run. reflexivity. }
  assert (Hcache : cachedLightPanelIds (this first) = Some ids)
    by (rewrite Hthis; reflexivity).
  split; [exact Hsent|].
  split; [|split; [|split; [|split; [exact Hcache|split; [|split]]]]].
  - intros id Hin. unfold write in Hin. rewrite addressed_staticWrite in Hin.
    destruct (fill_keys color ids JSMap.empty id Hin) as [[]|H].
    apply lightPanelIds_spec. exact H.
  - intros p Hin Hs.
    assert (Hid : In (panelId p) ids).
    { apply lightPanelIds_spec. exists p. repeat split; assumption. }
    destruct (fill_covers color ids JSMap.empty (panelId p) Hid) as [k [Hk Heq]].
    exists k. split.
    + unfold write. rewrite addressed_staticWrite. exact Hk.
    + apply Qeq_bool_iff. exact Heq.
  - unfold write, staticWrite, Descriptor.ofRequest. simpl.
    rewrite painted_animData. apply fill_values. constructor.
  - intros later Hl color'. exact (setColor_cached color' later ids Hl).
  - intros later op Hl. exact (invoke_keeps_connection op later ids Hl).
  - intros colors.
    destruct (setColors_cached colors first ids Hcache) as [Hs Ht].
    rewrite Hs, Ht, Hthis. split; reflexivity.
Qed.

End ColourWrites.

Lemma controller_panel_exclusion_witness :
  NanoleafClient.cachedLightPanelIds (NanoleafClient.this (Sim.start "*Dynamic*")) = None
  /\ NanoleafClient.sent
       (fst (NanoleafClient.setColor (mkRGB 255 0 0) (Sim.start "*Dynamic*")))
     = [ NanoleafClient.readState Sim.address;
         NanoleafClient.staticWrite Sim.address [11; 12; 13] (mkRGB 255 0 0) ]
  /\ NanoleafClient.sent
       (NanoleafClient.setColors [mkRGB 0 255 0; mkRGB 0 0 255]
          (fst (NanoleafClient.setColor (mkRGB 255 0 0) (Sim.start "*Dynamic*"))))
     = [ NanoleafClient.readState Sim.address;
         NanoleafClient.staticWrite Sim.address [11; 12; 13] (mkRGB 255 0 0);
         NanoleafClient.staticWrite Sim.address [11; 12; 13] (mkRGB 0 255 0);
         NanoleafClient.staticWrite Sim.address [11; 12; 13] (mkRGB 0 0 255) ].
Proof.
  pose proof (controller_panel_exclusion (N := Sim.net)
                (Sim.start "*Dynamic*") (mkRGB 255 0 0)
                (NanoleafClient.world (Sim.start "*Dynamic*"))
                (Sim.shapes "Shapes 1A2B" "*Dynamic*")
                eq_refl eq_refl) as H.
  cbv zeta in H.
  destruct H as [H1 [_ [_ [_ [_ [_ [_ H2]]]]]]].
  destruct (H2 [mkRGB 0 255 0; mkRGB 0 0 255]) as [H3 _].
  split; [reflexivity|]. split.
  - rewrite H1. reflexivity.
  - rewrite H3, H1. reflexivity.
Defined.

(** ** Facts about maps whose key test decides equality *)

Section MapFacts.

Variables K V : Type.
Variable keq : K -> K -> bool.
Hypothesis keq_eq : forall a b, keq a b = true <-> a = b.


Lemma keq_neq a b : a <> b -> keq a b = false.
Proof.
  intros H. destruct (keq a b) eqn:E; [|reflexivity].
  apply keq_eq in E. contradiction.
Qed.

Lemma entries_app (m1 m2 : JSMap.t K V) :
  JSMap.entries (m1 ++ m2) = JSMap.entries m1 ++ JSMap.entries m2.
Proof.
  induction m1 as [|[e|] m1 IH]; simpl; [reflexivity| |exact IH].
  rewrite IH. reflexivity.
Qed.

Lemma keys_app (m1 m2 : JSMap.t K V) :
  JSMap.keys (m1 ++ m2) = JSMap.keys m1 ++ JSMap.keys m2.
Proof. unfold JSMap.keys. rewrite entries_app, map_app. reflexivity. Qed.

Lemma has_keys k (m : JSMap.t K V) :
  JSMap.has keq k m = true <-> In k (JSMap.keys m).
Proof.
  unfold JSMap.has, JSMap.keys.
  induction m as [|[[k' v']|] m IH]; simpl.
  - split; [discriminate | intros []].
  - rewrite orb_true_iff, IH, keq_eq. tauto.
  - exact IH.
Qed.

Lemma has_false k (m : JSMap.t K V) :
  JSMap.has keq k m = false <-> ~ In k (JSMap.keys m).
Proof.
  rewrite <- has_keys. destruct (JSMap.has keq k m); split; intros H;
    try reflexivity; try discriminate; try (intros H'; discriminate).
  elim H. reflexivity.
Qed.



Lemma get_None k (m : JSMap.t K V) :
  JSMap.get keq k m = None <-> ~ In k (JSMap.keys m).
Proof.
  unfold JSMap.keys.
  induction m as [|[[k' v']|] m IH]; simpl.
  - tauto.
  - destruct (keq k' k) eqn:E.
    + apply keq_eq in E. split; [discriminate|]. intros H. elim H. left. exact E.
    + rewrite IH. split.
      * intros H [H'|H']; [|exact (H H')].
        apply keq_eq in H'. congruence.
      * intros H H'. apply H. right. exact H'.
  - exact IH.
Qed.

Lemma set_new k v (m : JSMap.t K V) :
  JSMap.has keq k m = false -> JSMap.set keq k v m = m ++ [Some (k, v)].
Proof.
  unfold JSMap.has.
  induction m as [|[[k' v']|] m IH]; simpl.
  - reflexivity.
  - intros H. apply orb_false_iff in H. destruct H as [H1 H2].
    rewrite H1, (IH H2). reflexivity.
  - intros H. rewrite (IH H). reflexivity.
Qed.

Lemma set_keys_has k v (m : JSMap.t K V) :
  JSMap.has keq k m = true -> JSMap.keys (JSMap.set keq k v m) = JSMap.keys m.
Proof.
  unfold JSMap.has, JSMap.keys.
  induction m as [|[[k' v']|] m IH]; simpl.
  - discriminate.
  - destruct (keq k' k) eqn:E; simpl.
    + reflexivity.
    + intros H. rewrite (IH H). reflexivity.
  - exact IH.
Qed.



Lemma set_entries_has k v (m : JSMap.t K V) :
  NoDup (JSMap.keys m) ->
  JSMap.entries (JSMap.set keq k v m)
  = if JSMap.has keq k m
    then map (fun e => if keq (fst e) k then (fst e, v) else e) (JSMap.entries m)
    else JSMap.entries m ++ [(k, v)].
Proof.
  unfold JSMap.has, JSMap.keys.
  induction m as [|[[k' v']|] m IH]; simpl.
  - reflexivity.
  - intros Hnd. inversion Hnd as [|? ? Hnot Hnd']; subst.
    destruct (keq k' k) eqn:E; simpl.
    + f_equal. apply keq_eq in E. subst k'.
      clear IH Hnd Hnd'. 
      induction (JSMap.entries m) as [|[k0 v0] es IHes]; simpl; [reflexivity|].
      simpl in Hnot.
      rewrite keq_neq by (intros ->; apply Hnot; left; reflexivity).
      rewrite <- IHes by (intros H; apply Hnot; right; exact H). reflexivity.
    + rewrite (IH Hnd').
      destruct (existsb (JSMap.holds keq k) m); reflexivity.
  - exact IH.
Qed.

End MapFacts.

(** ** Device registry *)

Section RegistryFacts.

Import DeviceManager.



Lemma string_eqb_eq a b : String.eqb a b = true <-> a = b.
Proof. apply String.eqb_eq. Qed.

Lemma truthy_spec s : truthy s = true <-> s <> EmptyString.
Proof.
  unfold truthy. rewrite negb_true_iff. split.
  - intros H ->. rewrite String.eqb_refl in H. discriminate.
  - intros H. apply String.eqb_neq. exact H.
Qed.

Lemma size_keys (devices : t) : JSMap.size devices = List.length (JSMap.keys devices).
Proof. unfold JSMap.size, JSMap.keys. rewrite length_map. reflexivity. Qed.

Lemma values_keys_nil (devices : t) :
  JSMap.values devices = [] <-> JSMap.keys devices = [].
Proof.
  unfold JSMap.values, JSMap.keys.
  destruct (JSMap.entries devices); simpl; split; intros H;
    try reflexivity; discriminate.
Qed.

Lemma wf_empty : wf empty.
Proof. split; [intros key device []|constructor]. Qed.

Lemma wf_register address token nickname devices :
  wf devices -> wf (snd (register address token nickname devices)).
Proof.
  intros [Hk Hnd]. unfold register. simpl.
  set (key := toLowerCase (aliasOr nickname address)).
  set (device := mkDevice _ _ _ _ _ _).
  split.
  - intros k d Hin.
    rewrite (set_entries_has _ _ _ string_eqb_eq key device devices Hnd) in Hin.
    destruct (JSMap.has String.eqb key devices).
    + apply in_map_iff in Hin. destruct Hin as [[k0 d0] [Heq Hin0]].
      simpl in Heq. destruct (String.eqb k0 key) eqn:E.
      * apply String.eqb_eq in E. inversion Heq; subst. reflexivity.
      * inversion Heq; subst. exact (Hk _ _ Hin0).
    + apply in_app_or in Hin. destruct Hin as [Hin|[Heq|[]]].
      * exact (Hk _ _ Hin).
      * inversion Heq; subst. reflexivity.
  - unfold JSMap.keys.
    destruct (JSMap.has String.eqb key devices) eqn:Hhas.
    + fold (JSMap.keys (JSMap.set String.eqb key device devices)).
      rewrite (set_keys_has _ _ _ key device devices Hhas). exact Hnd.
    + rewrite (set_new _ _ _ key device devices Hhas).
      fold (JSMap.keys (devices ++ [Some (key, device)])).
      rewrite keys_app. simpl.
      apply NoDup_app; [exact Hnd | repeat constructor; intros [] | ].
      intros k Hin [<-|[]].
      apply (has_false _ _ _ string_eqb_eq) in Hhas. contradiction.
Qed.

End RegistryFacts.

Section Registration.

Import DeviceManager.



End Registration.



Section Resolution.

Import DeviceManager.




End Resolution.



Example resolution_examples :
  DeviceManager.resolve None DeviceManager.empty
  = DeviceManager.Failed DeviceManager.notConfigured
  /\ DeviceManager.resolve (Some "anything"%string) DeviceManager.empty
     = DeviceManager.Failed DeviceManager.notConfigured
  /\ DeviceManager.resolve None Samples.kitchenAndLoft
     = DeviceManager.Failed
         "Multiple devices registered. Specify which device: Kitchen, 192.168.1.21"
  /\ DeviceManager.resolve (Some "192.168.1.21"%string) Samples.kitchenAndLoft
     = DeviceManager.Resolved (NanoleafClient.new "192.168.1.21" "tokenB")
         (DeviceManager.mkDevice "192.168.1.21" "192.168.1.21" "tokenB"
            (NanoleafClient.new "192.168.1.21" "tokenB") None None)
  /\ DeviceManager.resolve (Some "loft"%string) Samples.kitchenAndLoft
     = DeviceManager.Failed
         (DeviceManager.notFound "loft" ["Kitchen"%string; "192.168.1.21"%string]).
Proof. repeat split. Qed.

(** ** Colour model *)

(** Division by the constants of the colour model, for [lra]. *)
Ltac const_div :=
  unfold Qdiv in *;
  change (/ 360) with (1 # 360) in *;
  change (/ 100) with (1 # 100) in *;
  change (/ 255) with (1 # 255) in *;
  change (/ 6) with (1 # 6) in *;
  change (/ 60) with (1 # 60) in *.

Section ColourFacts.

Lemma floor_unique x (n : Z) :
  inject_Z n <= x -> x < inject_Z (n + 1) -> Qfloor x = n.
Proof.
  intros Hlo Hhi.
  assert (H1 : (n <= Qfloor x)%Z).
  { rewrite <- (Qfloor_Z n). apply Qfloor_resp_le. exact Hlo. }
  assert (H2 : (Qfloor x < n + 1)%Z).
  { rewrite Zlt_Qlt. apply Qle_lt_trans with x; [apply Qfloor_le | exact Hhi]. }
  lia.
Qed.

Lemma inject_Z_succ n : inject_Z (n + 1) == inject_Z n + 1.
Proof. rewrite inject_Z_plus. reflexivity. Qed.

Lemma round_bounds (lo hi : Z) y :
  inject_Z lo <= y -> y <= inject_Z hi ->
  inject_Z lo <= Math_round y <= inject_Z hi.
Proof.
  intros Hlo Hhi. unfold Math_round. split; rewrite <- Zle_Qle.
  - rewrite <- (Qfloor_Z lo). apply Qfloor_resp_le. lra.
  - assert (H : Qfloor (inject_Z hi + (1 # 2)) = hi).
    { apply floor_unique; [lra | rewrite inject_Z_succ; lra]. }
    rewrite <- H. apply Qfloor_resp_le. lra.
Qed.






End ColourFacts.

Section ColourFacts2.

Lemma Math_max_cases a c :
  (Math_max a c = a \/ Math_max a c = c) /\ a <= Math_max a c /\ c <= Math_max a c.
Proof.
  unfold Math_max. destruct (ltb a c) eqn:E.
  - apply ltb_spec in E. split; [right; reflexivity | split; lra].
  - apply ltb_false in E. split; [left; reflexivity | split; lra].
Qed.

Lemma Math_min_cases a c :
  (Math_min a c = a \/ Math_min a c = c) /\ Math_min a c <= a /\ Math_min a c <= c.
Proof.
  unfold Math_min. destruct (ltb c a) eqn:E.
  - apply ltb_spec in E. split; [right; reflexivity | split; lra].
  - apply ltb_false in E. split; [left; reflexivity | split; lra].
Qed.

Lemma Math_max3_cases a c d :
  (Math_max3 a c d = a \/ Math_max3 a c d = c \/ Math_max3 a c d = d)
  /\ a <= Math_max3 a c d /\ c <= Math_max3 a c d /\ d <= Math_max3 a c d.
Proof.
  unfold Math_max3.
  destruct (Math_max_cases a c) as [H1 [H2 H3]].
  destruct (Math_max_cases (Math_max a c) d) as [H4 [H5 H6]].
  split; [|repeat split; lra].
  destruct H4 as [H4|H4]; rewrite H4; [|right; right; reflexivity].
  destruct H1 as [H1|H1]; rewrite H1; [left|right; left]; reflexivity.
Qed.

Lemma Math_min3_cases a c d :
  (Math_min3 a c d = a \/ Math_min3 a c d = c \/ Math_min3 a c d = d)
  /\ Math_min3 a c d <= a /\ Math_min3 a c d <= c /\ Math_min3 a c d <= d.
Proof.
  unfold Math_min3.
  destruct (Math_min_cases a c) as [H1 [H2 H3]].
  destruct (Math_min_cases (Math_min a c) d) as [H4 [H5 H6]].
  split; [|repeat split; lra].
  destruct H4 as [H4|H4]; rewrite H4; [|right; right; reflexivity].
  destruct H1 as [H1|H1]; rewrite H1; [left|right; left]; reflexivity.
Qed.




Lemma eqb_false a c : eqb a c = false -> ~ a == c.
Proof.
  unfold eqb. intros H Heq. apply Qeq_bool_iff in Heq. congruence.
Qed.


End ColourFacts2.




(** ** Slots of a map *)

Section SlotFacts.

Variables K V : Type.
Variable keq : K -> K -> bool.
Hypothesis keq_eq : forall a b, keq a b = true <-> a = b.

Lemma update_length i v (m : JSMap.t K V) :
  List.length (JSMap.update i v m) = List.length m.
Proof.
  revert i. induction m as [|slot m IH]; intros [|i]; simpl; auto.
  - destruct slot as [[k v0]|]; reflexivity.
  - destruct slot as [[k v0]|]; simpl; rewrite IH; reflexivity.
Qed.

Lemma update_keys i v (m : JSMap.t K V) :
  JSMap.keys (JSMap.update i v m) = JSMap.keys m.
Proof.
  unfold JSMap.keys.
  revert i. induction m as [|slot m IH]; intros [|i]; simpl; auto.
  - destruct slot as [[k v0]|]; reflexivity.
  - destruct slot as [[k v0]|]; simpl; rewrite IH; reflexivity.
Qed.

Lemma update_nth_same i v k v0 (m : JSMap.t K V) :
  nth_error m i = Some (Some (k, v0)) ->
  nth_error (JSMap.update i v m) i = Some (Some (k, v)).
Proof.
  revert i. induction m as [|slot m IH]; intros [|i]; simpl; try discriminate.
  - intros H. inversion H; subst. reflexivity.
  - intros H. destruct slot as [[k1 v1]|]; simpl; apply IH; exact H.
Qed.


Lemma update_entries i v k v0 (m : JSMap.t K V) e :
  nth_error m i = Some (Some (k, v0)) ->
  In e (JSMap.entries (JSMap.update i v m)) ->
  e = (k, v) \/ In e (JSMap.entries m).
Proof.
  revert i. induction m as [|slot m IH]; intros [|i]; simpl; try discriminate.
  - intros H. inversion H; subst. simpl. intros [Hin|Hin]; [left; symmetry|right; right]; exact Hin.
  - intros H. destruct slot as [[k1 v1]|]; simpl.
    + intros [Hin|Hin]; [right; left; exact Hin|].
      destruct (IH i H Hin) as [H'|H']; [left; exact H'|right; right; exact H'].
    + intros Hin. exact (IH i H Hin).
Qed.

Lemma has_update k i v (m : JSMap.t K V) :
  JSMap.has keq k (JSMap.update i v m) = JSMap.has keq k m.
Proof.
  unfold JSMap.has.
  revert i. induction m as [|slot m IH]; intros [|i]; simpl; auto.
  - destruct slot as [[k1 v1]|]; reflexivity.
  - destruct slot as [[k1 v1]|]; simpl; rewrite IH; reflexivity.
Qed.

Lemma nth_entry i k v (m : JSMap.t K V) :
  nth_error m i = Some (Some (k, v)) -> In (k, v) (JSMap.entries m).
Proof.
  revert i. induction m as [|slot m IH]; intros [|i]; simpl; try discriminate.
  - intros H. inversion H; subst. left. reflexivity.
  - intros H. destruct slot as [e|]; [right|]; exact (IH i H).
Qed.

Lemma emptied_length i (m : JSMap.t K V) :
  List.length (JSMap.emptied i m) = List.length m.
Proof.
  revert i. induction m as [|slot m IH]; intros [|i]; simpl; auto.
Qed.


Lemma emptied_entries i (m : JSMap.t K V) e :
  In e (JSMap.entries (JSMap.emptied i m)) -> In e (JSMap.entries m).
Proof.
  revert i. induction m as [|slot m IH]; intros [|i]; simpl; auto.
  - destruct slot as [e0|]; [intros H; right; exact H | auto].
  - destruct slot as [e0|]; simpl.
    + intros [H|H]; [left; exact H | right; exact (IH i H)].
    + apply IH.
Qed.

Lemma emptied_keys i (m : JSMap.t K V) k :
  In k (JSMap.keys (JSMap.emptied i m)) -> In k (JSMap.keys m).
Proof.
  unfold JSMap.keys. rewrite !in_map_iff.
  intros [e [He Hin]]. exists e. split; [exact He|].
  exact (emptied_entries i m e Hin).
Qed.

Lemma emptied_NoDup i (m : JSMap.t K V) :
  NoDup (JSMap.keys m) -> NoDup (JSMap.keys (JSMap.emptied i m)).
Proof.
  revert i. induction m as [|slot m IH]; intros [|i]; simpl; auto.
  - destruct slot as [[k v]|]; [|auto].
    unfold JSMap.keys. simpl. intros H. inversion H; assumption.
  - destruct slot as [[k v]|]; [|apply IH].
    unfold JSMap.keys. simpl. intros H. inversion H as [|? ? Hnot Hnd]; subst.
    constructor; [|exact (IH i Hnd)].
    intros Hin. apply Hnot. exact (emptied_keys i m k Hin).
Qed.

Lemma emptied_update i v (m : JSMap.t K V) :
  JSMap.emptied i (JSMap.update i v m) = JSMap.emptied i m.
Proof.
  revert i. induction m as [|slot m IH]; intros [|i]; simpl; auto.
  - destruct slot as [[k1 v1]|]; reflexivity.
  - destruct slot as [[k1 v1]|]; simpl; rewrite IH; reflexivity.
Qed.

(** With distinct keys, deleting the key of a slot empties that slot. *)
Lemma delete_emptied i k v (m : JSMap.t K V) :
  NoDup (JSMap.keys m) ->
  nth_error m i = Some (Some (k, v)) ->
  snd (JSMap.delete keq k m) = JSMap.emptied i m.
Proof.
  unfold JSMap.keys.
  revert i. induction m as [|slot m IH]; intros [|i]; simpl; try discriminate.
  - intros _ H. inversion H; subst. simpl.
    rewrite (proj2 (keq_eq k k) eq_refl). reflexivity.
  - intros Hnd H. destruct slot as [[k1 v1]|]; simpl.
    + simpl in Hnd. inversion Hnd as [|? ? Hnot Hnd']; subst.
      assert (Hne : keq k1 k = false).
      { destruct (keq k1 k) eqn:E; [|reflexivity].
        apply keq_eq in E. subst k1. elim Hnot.
        apply (in_map fst _ _ (nth_entry i k v m H)). }
      rewrite Hne. specialize (IH i Hnd' H).
      destruct (JSMap.delete keq k m) as [found rest']. simpl in *.
      rewrite IH. reflexivity.
    + specialize (IH i Hnd H).
      destruct (JSMap.delete keq k m) as [found rest']. simpl in *.
      rewrite IH. reflexivity.
Qed.

Lemma skipn_nth {A} i (l : list A) a :
  nth_error l i = Some a -> skipn i l = a :: skipn (S i) l.
Proof.
  revert i. induction l as [|y l IH]; intros [|i]; simpl; try discriminate.
  - intros H. inversion H. reflexivity.
  - intros H. exact (IH i H).
Qed.

Lemma skipn_update i v (m : JSMap.t K V) :
  skipn (S i) (JSMap.update i v m) = skipn (S i) m.
Proof.
  revert i. induction m as [|slot m IH]; intros [|i]; simpl; auto.
  - destruct slot as [[k1 v1]|]; reflexivity.
  - destruct slot as [[k1 v1]|]; simpl; apply IH.
Qed.

Lemma skipn_emptied i (m : JSMap.t K V) :
  skipn (S i) (JSMap.emptied i m) = skipn (S i) m.
Proof.
  revert i. induction m as [|slot m IH]; intros [|i]; simpl; auto.
  apply IH.
Qed.

End SlotFacts.

(** ** Name refresh *)

Section RefreshFacts.

Context {N : Network}.

Import DeviceManager RefreshSteps.

Lemma slot_keyed (devices : t) index key device :
  wf devices -> nth_error devices index = Some (Some (key, device)) ->
  key = toLowerCase (alias device).
Proof.
  intros [Hk _] Hnth. apply Hk. exact (nth_entry _ _ _ _ _ _ Hnth).
Qed.

Lemma slot_has (devices : t) index key device :
  nth_error devices index = Some (Some (key, device)) ->
  In key (JSMap.keys devices).
Proof.
  intros Hnth. unfold JSMap.keys.
  apply (in_map fst _ _ (nth_entry _ _ _ _ _ _ Hnth)).
Qed.

(** The body of the loop, case by case. *)
Lemma refreshDevice_spec (devices : t) index key device net :
  wf devices ->
  nth_error devices index = Some (Some (key, device)) ->
  refreshDevice index device devices net
  = match fetchInfo device net with
    | (net', Throw _) => (devices, net')
    | (net', Ok info) =>
        (if upgradable devices device info
         then JSMap.emptied index devices ++ [rekeyed device info]
         else JSMap.update index (setNameModel device info) devices, net')
    end.
Proof.
  intros Hwf Hnth. unfold refreshDevice.
  destruct (fetchInfo device net) as [net' [info|e]]; [|reflexivity].
  cbv zeta. unfold upgradable. simpl alias. simpl ip.
  rewrite (has_update _ _ String.eqb).
  destruct (String.eqb (alias device) (ip device)) eqn:Ea; simpl; [|reflexivity].
  destruct (truthy (info_name info)); simpl; [|reflexivity].
  destruct (JSMap.has String.eqb (toLowerCase (info_name info)) devices) eqn:Eh;
    simpl; [reflexivity|].
  f_equal.
  apply String.eqb_eq in Ea.
  assert (Hkey : key = toLowerCase (ip device)).
  { rewrite <- Ea. exact (slot_keyed devices index key device Hwf Hnth). }
  rewrite <- Hkey.
  destruct Hwf as [_ Hnd].
  rewrite (delete_emptied _ _ String.eqb string_eqb_eq index key
             (setNameModel device info)).
  - rewrite emptied_update.
    apply (set_new _ _ String.eqb).
    apply (has_false _ _ _ string_eqb_eq). intros Hin.
    apply (has_false _ _ _ string_eqb_eq) in Eh. apply Eh.
    exact (emptied_keys _ _ _ _ _ Hin).
  - rewrite update_keys. exact Hnd.
  - exact (update_nth_same _ _ _ _ _ _ _ Hnth).
Qed.

(** A device that is re-keyed gets an alias that is not its address. *)
Lemma upgraded_alias (devices : t) index key device info :
  wf devices ->
  nth_error devices index = Some (Some (key, device)) ->
  upgradable devices device info = true ->
  key = toLowerCase (ip device) /\ info_name info <> ip device.
Proof.
  intros Hwf Hnth Hup. unfold upgradable in Hup.
  apply andb_true_iff in Hup. destruct Hup as [Hup Hhas].
  apply andb_true_iff in Hup. destruct Hup as [Ea _].
  apply String.eqb_eq in Ea. apply negb_true_iff in Hhas.
  assert (Hkey : key = toLowerCase (ip device)).
  { rewrite <- Ea. exact (slot_keyed devices index key device Hwf Hnth). }
  split; [exact Hkey|].
  intros Hname. apply (has_false _ _ _ string_eqb_eq) in Hhas. apply Hhas.
  rewrite Hname, <- Hkey. exact (slot_has devices index key device Hnth).
Qed.

Lemma refreshDevice_wf (devices : t) index key device net :
  wf devices ->
  nth_error devices index = Some (Some (key, device)) ->
  wf (fst (refreshDevice index device devices net)).
Proof.
  intros Hwf Hnth. rewrite (refreshDevice_spec devices index key device net Hwf Hnth).
  destruct (fetchInfo device net) as [net' [info|e]]; simpl; [|exact Hwf].
  pose proof (slot_keyed devices index key device Hwf Hnth) as Hkey.
  destruct Hwf as [Hk Hnd].
  destruct (upgradable devices device info) eqn:Hup.
  - split.
    + intros k d Hin. rewrite entries_app in Hin.
      apply in_app_or in Hin. destruct Hin as [Hin|Hin].
      * apply Hk. exact (emptied_entries _ _ _ _ _ Hin).
      * simpl in Hin. destruct Hin as [Heq|[]]. inversion Heq; subst. reflexivity.
    + rewrite keys_app. apply NoDup_app.
      * apply emptied_NoDup. exact Hnd.
      * repeat constructor. intros [].
      * intros k Hin [Hk'|[]]. simpl in Hk'. subst k.
        unfold upgradable in Hup. apply andb_true_iff in Hup.
        destruct Hup as [_ Hhas]. apply negb_true_iff in Hhas.
        apply (has_false _ _ _ string_eqb_eq) in Hhas. apply Hhas.
        exact (emptied_keys _ _ _ _ _ Hin).
  - split.
    + intros k d Hin.
      destruct (update_entries _ _ _ _ _ _ _ _ Hnth Hin) as [Heq|Hin'].
      * inversion Heq; subst. reflexivity.
      * exact (Hk _ _ Hin').
    + rewrite update_keys. exact Hnd.
Qed.






End RefreshFacts.

Section RefreshLoop.

Context {N : Network}.

Import DeviceManager RefreshSteps.

Lemma stepsLeft_next (devices : t) index slot :
  nth_error devices index = Some slot ->
  stepsLeft index devices
  = (1 + (if candidate slot then 1 else 0) + stepsLeft (S index) devices)%nat.
Proof.
  intros Hnth. unfold stepsLeft. rewrite (skipn_nth _ _ _ Hnth). simpl.
  destruct (candidate slot); simpl; lia.
Qed.

Lemma stepsLeft_same_tail (devices devices' : t) index :
  skipn (S index) devices' = skipn (S index) devices ->
  stepsLeft (S index) devices' = stepsLeft (S index) devices.
Proof. intros H. unfold stepsLeft. rewrite H. reflexivity. Qed.

(** Each body of the loop leaves fewer steps. *)
Lemma refreshDevice_stepsLeft (devices : t) index key device net :
  wf devices ->
  nth_error devices index = Some (Some (key, device)) ->
  (stepsLeft (S index) (fst (refreshDevice index device devices net))
   < stepsLeft index devices)%nat.
Proof.
  intros Hwf Hnth.
  rewrite (stepsLeft_next devices index _ Hnth).
  rewrite (refreshDevice_spec devices index key device net Hwf Hnth).
  destruct (fetchInfo device net) as [net' [info|e]]; simpl fst; [|lia].
  destruct (upgradable devices device info) eqn:Hup.
  - destruct (upgraded_alias devices index key device info Hwf Hnth Hup)
      as [_ Hname].
    assert (Hcand : candidate (Some (key, device)) = true).
    { unfold upgradable in Hup. apply andb_true_iff in Hup.
      destruct Hup as [Hup _]. apply andb_true_iff in Hup.
      destruct Hup as [Ea _]. exact Ea. }
    rewrite Hcand.
    unfold stepsLeft at 1.
    assert (Hlen : (S index <= List.length (JSMap.emptied index devices))%nat).
    { rewrite emptied_length. apply Nat.le_succ_l. apply nth_error_Some.
      rewrite Hnth. discriminate. }
    rewrite skipn_app.
    replace (S index - List.length (JSMap.emptied index devices))%nat with 0%nat
      by lia.
    rewrite skipn_emptied. unfold stepsLeft.
    set (rest := skipn (S index) devices).
    rewrite skipn_O, filter_app, !length_app.
    assert (Hnew : String.eqb (info_name info) (ip device) = false)
      by (apply String.eqb_neq; exact Hname).
    simpl. rewrite Hnew. simpl. lia.
  - rewrite (stepsLeft_same_tail devices _ index (skipn_update _ _ _ _ _)). lia.
Qed.

Lemma refreshLoop_returns fuel : forall index (devices : t) net,
  wf devices ->
  (stepsLeft index devices < fuel)%nat ->
  exists devices' net',
    refreshLoop fuel index devices net = Some (devices', net')
    /\ reaches devices devices'.
Proof.
  induction fuel as [|fuel IH]; intros index devices net Hwf Hlt; [lia|].
  simpl. destruct (nth_error devices index) as [[[key device]|]|] eqn:Hnth.
  - pose proof (refreshDevice_stepsLeft devices index key device net Hwf Hnth) as Hdec.
    pose proof (refreshDevice_wf devices index key device net Hwf Hnth) as Hwf'.
    destruct (refreshDevice index device devices net) as [devices1 net1] eqn:E.
    simpl in Hdec, Hwf'.
    destruct (IH (S index) devices1 net1 Hwf') as [devices' [net' [Hrun Hreach]]];
      [lia|].
    exists devices', net'. split; [exact Hrun|].
    apply (reaches_step devices index key device net devices' Hnth).
    rewrite E. exact Hreach.
  - rewrite (stepsLeft_next devices index _ Hnth) in Hlt. simpl in Hlt.
    apply IH; [exact Hwf | lia].
  - exists devices, net. split; [reflexivity | apply reaches_refl].
Qed.

Lemma stepsLeft_start (devices : t) :
  (stepsLeft 0 devices < 2 * List.length devices + 1)%nat.
Proof.
  unfold stepsLeft. simpl skipn.
  pose proof (filter_length_le candidate devices). lia.
Qed.

(** [refreshNames] returns, on every network and every registry. *)
Lemma refreshNames_returns (devices : t) net :
  wf devices ->
  exists devices' net',
    refreshNames devices net = Some (devices', net')
    /\ reaches devices devices'.
Proof.
  intros Hwf. unfold refreshNames.
  apply refreshLoop_returns; [exact Hwf | apply stepsLeft_start].
Qed.

End RefreshLoop.

Section RefreshTheorem.

Context {N : Network}.

Import DeviceManager RefreshSteps.





End RefreshTheorem.


(** The re-keyed device is visited a second time by the same call: the
    second device is asked for its state twice. *)
Example refreshNames_visits_rekeyed_device :
  option_map (fun r => map host (DeviceManager.sent (snd r)))
    (DeviceManager.refreshNames Samples.kitchenAndLoft Samples.loftAnswers)
  = Some ["192.168.1.20"%string; "192.168.1.21"%string; "192.168.1.21"%string].
Proof. vm_compute. reflexivity. Qed.

(** ** Round trip of the colour conversions *)

Section WheelFacts.

Import Wheel.

Lemma Math_round_comp a c : a == c -> Math_round a = Math_round c.
Proof.
  intros H. unfold Math_round. f_equal.
  assert (E : a + (1 # 2) == c + (1 # 2)) by (rewrite H; reflexivity).
  rewrite E. reflexivity.
Qed.






End WheelFacts.

Section WheelConversions.

Import Wheel.


End WheelConversions.

Section WheelConversions2.

Import Wheel.


Lemma eqb_true a c : eqb a c = true -> a == c.
Proof. unfold eqb. apply Qeq_bool_iff. Qed.


End WheelConversions2.

Section RoundTrip.

Import Wheel.


End RoundTrip.

Section RoundTripWhole.

Import Wheel.




End RoundTripWhole.




(** * Further properties *)

(** ** Registration and removal *)

Section RegistryMore.

Import DeviceManager.


End RegistryMore.





Section DeleteFacts.

Variables K V : Type.
Variable keq : K -> K -> bool.
Hypothesis keq_eq : forall a b, keq a b = true <-> a = b.

Lemma delete_found k (m : JSMap.t K V) :
  fst (JSMap.delete keq k m) = JSMap.has keq k m.
Proof.
  unfold JSMap.has.
  induction m as [|slot m IH]; simpl; [reflexivity|].
  destruct (JSMap.holds keq k slot); simpl; [reflexivity|].
  destruct (JSMap.delete keq k m) as [found rest']. simpl in *. exact IH.
Qed.

Lemma delete_absent k (m : JSMap.t K V) :
  JSMap.has keq k m = false -> snd (JSMap.delete keq k m) = m.
Proof.
  unfold JSMap.has.
  induction m as [|slot m IH]; simpl; [reflexivity|].
  destruct (JSMap.holds keq k slot); simpl; [discriminate|].
  intros H. specialize (IH H).
  destruct (JSMap.delete keq k m) as [found rest']. simpl in *.
  rewrite IH. reflexivity.
Qed.

(** With distinct keys, deleting a key that is held takes exactly that
    key out of the keys, at its place. *)
Lemma delete_keys k (m : JSMap.t K V) :
  NoDup (JSMap.keys m) -> JSMap.has keq k m = true ->
  exists before after,
    JSMap.keys m = before ++ k :: after
    /\ JSMap.keys (snd (JSMap.delete keq k m)) = before ++ after.
Proof.
  unfold JSMap.has, JSMap.keys.
  induction m as [|[[k0 v0]|] m IH]; simpl.
  - discriminate.
  - intros Hnd Hhas. destruct (keq k0 k) eqn:E; simpl.
    + apply keq_eq in E. subst k0. exists [], (map fst (JSMap.entries m)).
      split; reflexivity.
    + inversion Hnd as [|? ? Hnot Hnd']; subst.
      destruct (IH Hnd' Hhas) as [before [after [E1 E2]]].
      destruct (JSMap.delete keq k m) as [found rest']. simpl in *.
      exists (k0 :: before), after. rewrite E1, E2. split; reflexivity.
  - intros Hnd Hhas.
    destruct (IH Hnd Hhas) as [before [after [E1 E2]]].
    destruct (JSMap.delete keq k m) as [found rest']. simpl in *.
    exists before, after. split; assumption.
Qed.

Lemma get_delete_other k other (m : JSMap.t K V) :
  other <> k ->
  JSMap.get keq other (snd (JSMap.delete keq k m)) = JSMap.get keq other m.
Proof.
  intros Hne.
  induction m as [|[[k0 v0]|] m IH]; simpl; [reflexivity| |].
  - destruct (keq k0 k) eqn:E; simpl.
    + apply keq_eq in E. subst k0.
      rewrite (keq_neq _ keq keq_eq k other) by congruence. reflexivity.
    + destruct (JSMap.delete keq k m) as [found rest']. simpl in *.
      rewrite IH. reflexivity.
  - destruct (JSMap.delete keq k m) as [found rest']. simpl in *. exact IH.
Qed.

End DeleteFacts.

(** X3. [remove] tells whether the registry held the lower-case alias;
    afterwards it does not hold it, the size is one less when it did,
    every other key keeps its device, and a registry that did not hold
    the alias is left as it was. *)
Theorem remove_spec (devices : DeviceManager.t) (nickname : string) :
  DeviceManager.wf devices ->
  let found := fst (DeviceManager.remove nickname devices) in
  let devices' := snd (DeviceManager.remove nickname devices) in
  found = DeviceManager.has nickname devices
  /\ DeviceManager.has nickname devices' = false
  /\ DeviceManager.size devices'
     = (DeviceManager.size devices - (if found then 1 else 0))%nat
  /\ (forall other, other <> toLowerCase nickname ->
        JSMap.get String.eqb other devices' = JSMap.get String.eqb other devices)
  /\ (found = false -> devices' = devices).
Proof.
  intros [Hk Hnd] found devices'.
  assert (Hfound : found = DeviceManager.has nickname devices)
    by (apply delete_found).
  split; [exact Hfound|].
  unfold DeviceManager.has, DeviceManager.size in *.
  destruct (JSMap.has String.eqb (toLowerCase nickname) devices) eqn:Hhas.
  - destruct (delete_keys _ _ String.eqb string_eqb_eq (toLowerCase nickname)
                devices Hnd Hhas) as [before [after [E1 E2]]].
    change (JSMap.keys devices' = before ++ after) in E2.
    split; [|split; [|split]].
    + apply (has_false _ _ _ string_eqb_eq). rewrite E2. intros Hin.
      rewrite E1 in Hnd. apply NoDup_remove_2 in Hnd. contradiction.
    + rewrite Hfound, !size_keys, E1, E2, !length_app. simpl. lia.
    + intros other Hne. apply (get_delete_other _ _ _ string_eqb_eq). exact Hne.
    + rewrite Hfound. discriminate.
  - assert (E : devices' = devices) by (apply delete_absent; exact Hhas).
    rewrite E, Hfound. split; [exact Hhas|]. split; [lia|].
    split; [reflexivity | reflexivity].
Qed.

Lemma remove_spec_witness :
  DeviceManager.wf Samples.kitchenAndLoft
  /\ fst (DeviceManager.remove "KITCHEN" Samples.kitchenAndLoft) = true
  /\ DeviceManager.size (snd (DeviceManager.remove "KITCHEN" Samples.kitchenAndLoft))
     = 1%nat.
Proof.
  assert (Hwf : DeviceManager.wf Samples.kitchenAndLoft).
  { apply wf_register. apply wf_register. apply wf_empty. }
  split; [exact Hwf|].
  destruct (remove_spec Samples.kitchenAndLoft "KITCHEN" Hwf)
    as [Hfound [_ [Hsize _]]].
  split; [rewrite Hfound; reflexivity | rewrite Hsize; reflexivity].
Defined.

(** X4. After an alias has been removed, [resolve] does not find a
    device by it any more: with no device left it reports that none is
    registered; otherwise it returns the first remaining device whose
    address is that very string, and else the not-found error naming the
    remaining aliases. *)
Theorem remove_then_resolve (devices : DeviceManager.t) (nickname : string) :
  DeviceManager.wf devices ->
  nickname <> EmptyString ->
  let devices' := snd (DeviceManager.remove nickname devices) in
  DeviceManager.resolve (Some nickname) devices'
  = match DeviceManager.listAll devices' with
    | [] => DeviceManager.Failed DeviceManager.notConfigured
    | all =>
        match find (ResolveSpec.ipMatches nickname) all with
        | Some device => DeviceManager.Resolved (DeviceManager.client device) device
        | None =>
            DeviceManager.Failed
              (DeviceManager.notFound nickname (map DeviceManager.alias all))
        end
    end.
Proof.
  intros Hwf Hne devices'.
  destruct (remove_spec devices nickname Hwf) as [_ [Hhas _]].
  change (DeviceManager.has nickname devices' = false) in Hhas.
  clearbody devices'. unfold DeviceManager.has in Hhas.
  apply (has_false _ _ _ string_eqb_eq) in Hhas.
  apply (get_None _ _ _ string_eqb_eq) in Hhas.
  unfold DeviceManager.resolve, DeviceManager.listAll.
  unfold JSMap.size, JSMap.values.
  destruct (JSMap.entries devices') as [|e others] eqn:E; simpl; [reflexivity|].
  unfold DeviceManager.absent. apply truthy_spec in Hne. rewrite Hne. simpl.
  rewrite Hhas. reflexivity.
Qed.

Lemma remove_then_resolve_witness :
  DeviceManager.wf Samples.kitchenAndLoft
  /\ "kitchen"%string <> EmptyString
  /\ DeviceManager.resolve (Some "kitchen"%string)
       (snd (DeviceManager.remove "kitchen" Samples.kitchenAndLoft))
     = DeviceManager.Failed
         (DeviceManager.notFound "kitchen" ["192.168.1.21"%string])
  /\ DeviceManager.resolve (Some "kitchen"%string)
       (snd (DeviceManager.remove "kitchen" Samples.kitchen))
     = DeviceManager.Failed DeviceManager.notConfigured.
Proof.
  assert (Hwf1 : DeviceManager.wf Samples.kitchen)
    by (apply wf_register; apply wf_empty).
  assert (Hwf : DeviceManager.wf Samples.kitchenAndLoft)
    by (apply wf_register; exact Hwf1).
  assert (Hne : "kitchen"%string <> EmptyString) by discriminate.
  split; [exact Hwf|]. split; [exact Hne|]. split.
  - rewrite (remove_then_resolve Samples.kitchenAndLoft "kitchen" Hwf Hne).
    reflexivity.
  - rewrite (remove_then_resolve Samples.kitchen "kitchen" Hwf1 Hne).
    reflexivity.
Defined.

Section SlotEntries.

Variables K V : Type.

Lemma entries_at i k v (m : JSMap.t K V) :
  nth_error m i = Some (Some (k, v)) ->
  exists before after,
    JSMap.entries m = before ++ (k, v) :: after
    /\ (forall v', JSMap.entries (JSMap.update i v' m) = before ++ (k, v') :: after)
    /\ JSMap.entries (JSMap.emptied i m) = before ++ after.
Proof.
  revert i. induction m as [|slot m IH]; intros [|i] Hnth; simpl in Hnth;
    try discriminate.
  - injection Hnth as ->. exists [], (JSMap.entries m). simpl. auto.
  - destruct (IH i Hnth) as [before [after [E1 [E2 E3]]]].
    destruct slot as [[k0 v0]|]; simpl.
    + exists ((k0, v0) :: before), after. simpl. rewrite E1, E3.
      split; [reflexivity|]. split; [|reflexivity].
      intros v'. rewrite E2. reflexivity.
    + exists before, after. split; [exact E1|]. split; [|exact E3].
      intros v'. apply E2.
Qed.

End SlotEntries.

Section RefreshMore.

Context {N : Network}.

Import DeviceManager RefreshSteps Inventory.

Lemma refreshDevice_endpoints (devices : t) index key device net :
  wf devices ->
  nth_error devices index = Some (Some (key, device)) ->
  Permutation (endpoints devices)
    (endpoints (fst (refreshDevice index device devices net))).
Proof.
  intros Hwf Hnth.
  rewrite (refreshDevice_spec devices index key device net Hwf Hnth).
  destruct (fetchInfo device net) as [net' [info|err]]; simpl; [|reflexivity].
  destruct (entries_at _ _ index key device devices Hnth)
    as [before [after [E1 [E2 E3]]]].
  unfold endpoints, listAll, JSMap.values.
  destruct (upgradable devices device info).
  - rewrite (entries_app _ _ (JSMap.emptied index devices)), E1, E3.
    simpl. rewrite !map_app. simpl.
    change (endpoint (setAlias (setNameModel device info) (info_name info)))
      with (endpoint device).
    rewrite <- app_assoc. apply Permutation_app_head.
    apply Permutation_cons_append.
  - rewrite E1, E2, !map_app. reflexivity.
Qed.

Lemma reaches_endpoints (devices devices' : t) :
  reaches devices devices' -> wf devices ->
  Permutation (endpoints devices) (endpoints devices').
Proof.
  induction 1 as [|devices index key device net devices' Hnth Hr IH]; intros Hwf.
  - reflexivity.
  - eapply Permutation_trans.
    + exact (refreshDevice_endpoints devices index key device net Hwf Hnth).
    + apply IH. exact (refreshDevice_wf devices index key device net Hwf Hnth).
Qed.

(** X5. [refreshNames] neither adds nor drops a device: it returns a
    registry of the same size whose devices have the addresses, tokens
    and connections of the devices it was given, each as often as
    before. *)
Theorem refreshNames_keeps_devices (devices : t) (net : Net) :
  wf devices ->
  exists devices' net',
    refreshNames devices net = Some (devices', net')
    /\ size devices' = size devices
    /\ Permutation (endpoints devices) (endpoints devices').
Proof.
  intros Hwf.
  destruct (refreshNames_returns devices net Hwf) as [devices' [net' [Hrun Hr]]].
  exists devices', net'. split; [exact Hrun|].
  pose proof (reaches_endpoints devices devices' Hr Hwf) as Hperm.
  split; [|exact Hperm].
  apply Permutation_length in Hperm.
  unfold endpoints, listAll, JSMap.values in Hperm.
  rewrite !length_map in Hperm. unfold size, JSMap.size. symmetry. exact Hperm.
Qed.

(** On a network that refuses every [GET /], the loop leaves the
    registry as it is and sends one request for each device ahead. *)
Lemma refreshLoop_unanswered
  (Hdown : forall host token w, snd (http_get_root host token w) = None)
  fuel : forall index (devices : t) net,
  (List.length (skipn index devices) < fuel)%nat ->
  exists net',
    refreshLoop fuel index devices net = Some (devices, net')
    /\ sent net' = sent net ++ map probe (JSMap.values (skipn index devices)).
Proof.
  induction fuel as [|fuel IH]; intros index devices net Hlt; [lia|].
  simpl. destruct (nth_error devices index) as [[[key device]|]|] eqn:Hnth.
  - destruct (IH (S index) devices
                (mkNet (fst (http_get_root (NanoleafClient.ip (client device))
                               (NanoleafClient.authToken (client device))
                               (world net)))
                       (sent net ++ [probe device])))
      as [net' [Hrun Hsent]].
    { rewrite (skipn_nth _ _ _ Hnth) in Hlt. cbn [List.length] in Hlt. lia. }
    exists net'. unfold refreshDevice, fetchInfo. rewrite getInfo_run.
    cbn [fst snd NanoleafClient.this NanoleafClient.world NanoleafClient.sent].
    rewrite Hdown. split; [exact Hrun|].
    rewrite Hsent, (skipn_nth _ _ _ Hnth). cbn [sent].
    unfold JSMap.values. cbn [JSMap.entries map snd].
    rewrite <- app_assoc. reflexivity.
  - destruct (IH (S index) devices net) as [net' [Hrun Hsent]].
    { rewrite (skipn_nth _ _ _ Hnth) in Hlt. cbn [List.length] in Hlt. lia. }
    exists net'. split; [exact Hrun|].
    rewrite Hsent, (skipn_nth _ _ _ Hnth). reflexivity.
  - exists net. split; [reflexivity|].
    apply nth_error_None in Hnth. rewrite skipn_all2 by exact Hnth.
    simpl. rewrite app_nil_r. reflexivity.
Qed.

(** X6. When no device answers [GET /], [refreshNames] returns the
    registry unchanged, having sent exactly one [GET /] to each
    registered device, in the order of registration. *)
Theorem refreshNames_unanswered (devices : t) (net : Net) :
  (forall host token w, snd (http_get_root host token w) = None) ->
  exists net',
    refreshNames devices net = Some (devices, net')
    /\ sent net' = sent net ++ map probe (listAll devices).
Proof.
  intros Hdown. unfold refreshNames.
  destruct (refreshLoop_unanswered Hdown (2 * List.length devices + 1) 0
              devices net) as [net' [Hrun Hsent]].
  - simpl. lia.
  - exists net'. split; [exact Hrun | exact Hsent].
Qed.

End RefreshMore.

Lemma refreshNames_keeps_devices_witness :
  DeviceManager.wf Samples.kitchenAndLoft
  /\ exists devices' net',
       DeviceManager.refreshNames Samples.kitchenAndLoft Samples.loftAnswers
       = Some (devices', net')
       /\ DeviceManager.size devices' = DeviceManager.size Samples.kitchenAndLoft
       /\ Permutation (Inventory.endpoints Samples.kitchenAndLoft)
            (Inventory.endpoints devices').
Proof.
  assert (Hwf : DeviceManager.wf Samples.kitchenAndLoft).
  { apply wf_register. apply wf_register. apply wf_empty. }
  split; [exact Hwf|].
  exact (refreshNames_keeps_devices Samples.kitchenAndLoft Samples.loftAnswers Hwf).
Defined.

Lemma refreshNames_unanswered_witness :
  (forall host token w,
     snd (@http_get_root Offline.net host token w) = None)
  /\ exists net',
       DeviceManager.refreshNames Samples.kitchenAndLoft Offline.start
       = Some (Samples.kitchenAndLoft, net')
       /\ DeviceManager.sent net'
          = [mkRequest "192.168.1.20" "/" GET; mkRequest "192.168.1.21" "/" GET].
Proof.
  assert (Hdown : forall host token w,
            snd (@http_get_root Offline.net host token w) = None)
    by reflexivity.
  split; [exact Hdown|].
  exact (refreshNames_unanswered Samples.kitchenAndLoft Offline.start Hdown).
Defined.

Section RegistryHistory.

Context {N : Network}.

Import DeviceManager RefreshSteps History.




End RegistryHistory.


Section ColourMore.

Import NanoleafClient.

Ltac split_sector :=
  repeat match goal with
         | |- context [match ?k with _ => _ end] => is_var k; destruct k
         end.

Lemma sector_nonneg x : 0 <= x -> (0 <= Z.rem (Qfloor x) 6 < 6)%Z.
Proof.
  intros Hx.
  assert (H0 : (0 <= Qfloor x)%Z).
  { rewrite <- (Qfloor_Z 0). apply Qfloor_resp_le. exact Hx. }
  rewrite Z.rem_mod_nonneg by lia. apply Z.mod_pos_bound. lia.
Qed.





(** X10. Without brightness the colour is black, whatever the hue and
    the saturation; and without saturation, from hue 0 upwards, it is a
    grey: the three channels are the brightness on the scale of 255,
    rounded. *)
Theorem hsbToRgb_black_and_grey (color : HSBColor) :
  (brightness color == 0 -> hsbToRgb color = mkRGB 0 0 0)
  /\ (0 <= hue color -> saturation color == 0 ->
      let level := Math_round (brightness color / 100 * 255) in
      hsbToRgb color = mkRGB level level level).
Proof.
  split.
  - intros Hv. unfold hsbToRgb. cbv zeta.
    remember (hue color / 360 * 6 - inject_Z (Qfloor (hue color / 360 * 6)))
      as f eqn:Ef. clear Ef.
    remember (Z.rem (Qfloor (hue color / 360 * 6)) 6) as k eqn:Ek. clear Ek.
    assert (Hzero : forall c, brightness color / 100 * c * 255 == 0)
      by (intros c; rewrite Hv; const_div; ring).
    assert (Hround : forall c,
              Math_round (brightness color / 100 * c * 255) = 0)
      by (intros c; exact (Math_round_comp _ 0 (Hzero c))).
    assert (Hround1 : Math_round (brightness color / 100 * 255) = 0)
      by (apply (Math_round_comp _ 0); rewrite Hv; const_div; ring).
    split_sector; cbv iota beta;
      rewrite ?Hround, ?Hround1; reflexivity.
  - intros Hh Hs level. unfold hsbToRgb. cbv zeta.
    assert (Hx : 0 <= hue color / 360 * 6) by (const_div; lra).
    pose proof (sector_nonneg _ Hx) as Hk.
    remember (hue color / 360 * 6 - inject_Z (Qfloor (hue color / 360 * 6)))
      as f eqn:Ef. clear Ef.
    remember (Z.rem (Qfloor (hue color / 360 * 6)) 6) as k eqn:Ek. clear Ek.
    assert (Hcases : (k = 0 \/ k = 1 \/ k = 2 \/ k = 3 \/ k = 4 \/ k = 5)%Z) by lia.
    destruct Hcases as [E|[E|[E|[E|[E|E]]]]]; subst k; cbv iota beta;
      unfold level; f_equal; apply Math_round_comp; rewrite Hs;
      const_div; ring.
Qed.

Lemma hsbToRgb_black_and_grey_witness :
  0 <= 210 /\ 0 == 0
  /\ hsbToRgb (mkHSB 210 0 40) = mkRGB 102 102 102
  /\ hsbToRgb (mkHSB 210 70 0) = mkRGB 0 0 0.
Proof.
  assert (Hh : 0 <= 210) by lra.
  assert (Hz : 0 == 0) by reflexivity.
  split; [exact Hh|]. split; [exact Hz|]. split.
  - exact (proj2 (hsbToRgb_black_and_grey (mkHSB 210 0 40)) Hh Hz).
  - exact (proj1 (hsbToRgb_black_and_grey (mkHSB 210 70 0)) Hz).
Defined.

(** X11. A colour with three equal channels has hue 0 and saturation
    0, and the brightness of its channel on the scale of 100, rounded;
    no division by zero is met, black included. *)
Theorem rgbToHsb_grey (color : RGBColor) :
  r color == g color -> g color == b color ->
  rgbToHsb color = mkHSB 0 0 (Math_round (r color / 255 * 100)).
Proof.
  intros Hrg Hgb. unfold rgbToHsb. cbv zeta.
  destruct (Math_max3_cases (r color / 255) (g color / 255) (b color / 255))
    as [_ [M1 [M2 M3]]].
  destruct (Math_min3_cases (r color / 255) (g color / 255) (b color / 255))
    as [_ [m1 [m2 m3]]].
  set (M := Math_max3 (r color / 255) (g color / 255) (b color / 255)) in *.
  set (m := Math_min3 (r color / 255) (g color / 255) (b color / 255)) in *.
  assert (HM : M == r color / 255).
  { destruct (Math_max3_cases (r color / 255) (g color / 255) (b color / 255))
      as [[E|[E|E]] _]; fold M in E; rewrite E; const_div; lra. }
  assert (Hm : m == r color / 255).
  { destruct (Math_min3_cases (r color / 255) (g color / 255) (b color / 255))
      as [[E|[E|E]] _]; fold m in E; rewrite E; const_div; lra. }
  assert (Hdelta : M - m == 0) by lra.
  assert (Ed : eqb (M - m) 0 = true) by (apply Qeq_bool_iff; exact Hdelta).
  rewrite Ed. cbn [negb].
  f_equal.
  - destruct (eqb M 0); [reflexivity|].
    apply (Math_round_comp _ 0). rewrite Hdelta. unfold Qdiv. ring.
  - apply Math_round_comp. rewrite HM. reflexivity.
Qed.

Lemma rgbToHsb_grey_witness :
  128 == 128
  /\ rgbToHsb (mkRGB 128 128 128) = mkHSB 0 0 50
  /\ rgbToHsb (mkRGB 0 0 0) = mkHSB 0 0 0.
Proof.
  assert (H1 : 128 == 128) by reflexivity.
  assert (H0 : 0 == 0) by reflexivity.
  split; [exact H1|]. split.
  - exact (rgbToHsb_grey (mkRGB 128 128 128) H1 H1).
  - exact (rgbToHsb_grey (mkRGB 0 0 0) H0 H0).
Defined.

End ColourMore.

Section Extremes.

Lemma fold_max_spec rest : forall first,
  (forall e, In e (first :: rest) -> e <= fold_left Math_max rest first)
  /\ In (fold_left Math_max rest first) (first :: rest).
Proof.
  induction rest as [|next rest IH]; intros first; simpl.
  - split; [intros e [<-|[]]; lra | left; reflexivity].
  - destruct (IH (Math_max first next)) as [Hle Hin].
    destruct (Math_max_cases first next) as [Hcase [H1 H2]].
    split.
    + intros e [<-|[<-|He]].
      * pose proof (Hle (Math_max first next) (or_introl eq_refl)). lra.
      * pose proof (Hle (Math_max first next) (or_introl eq_refl)). lra.
      * apply Hle. right. exact He.
    + destruct Hin as [Hin|Hin]; [|right; right; exact Hin].
      rewrite <- Hin. destruct Hcase as [->| ->]; [left|right; left]; reflexivity.
Qed.

Lemma fold_min_spec rest : forall first,
  (forall e, In e (first :: rest) -> fold_left Math_min rest first <= e)
  /\ In (fold_left Math_min rest first) (first :: rest).
Proof.
  induction rest as [|next rest IH]; intros first; simpl.
  - split; [intros e [<-|[]]; lra | left; reflexivity].
  - destruct (IH (Math_min first next)) as [Hle Hin].
    destruct (Math_min_cases first next) as [Hcase [H1 H2]].
    split.
    + intros e [<-|[<-|He]].
      * pose proof (Hle (Math_min first next) (or_introl eq_refl)). lra.
      * pose proof (Hle (Math_min first next) (or_introl eq_refl)). lra.
      * apply Hle. right. exact He.
    + destruct Hin as [Hin|Hin]; [|right; right; exact Hin].
      rewrite <- Hin. destruct Hcase as [->| ->]; [left|right; left]; reflexivity.
Qed.

Lemma Math_max_of_spec xs :
  xs <> [] ->
  (forall e, In e xs -> e <= Math_max_of xs) /\ In (Math_max_of xs) xs.
Proof.
  destruct xs as [|first rest]; [congruence|]. intros _. apply fold_max_spec.
Qed.

Lemma Math_min_of_spec xs :
  xs <> [] ->
  (forall e, In e xs -> Math_min_of xs <= e) /\ In (Math_min_of xs) xs.
Proof.
  destruct xs as [|first rest]; [congruence|]. intros _. apply fold_min_spec.
Qed.

End Extremes.

Section LayoutBounds.

Context {N : Network}.

Import NanoleafClient.

(** X12. When the device answers, [getPanelLayout] returns its panels
    as reported, after one [GET /]; every panel lies within the bounds,
    each bound is the coordinate of some panel, and the width and the
    height are the differences of the bounds and not negative.  A
    device that reports no panel gets the panel count 0 and bounds that
    are all 0, whatever count it reports. *)
Theorem getPanelLayout_bounds (st : St) (w : World) (info : DeviceInfo) :
  http_get_root (ip (this st)) (authToken (this st)) (world st) = (w, Some info) ->
  exists layout,
    getPanelLayout st = (afterRead st w, Ok layout)
    /\ positions layout = positionData (panelLayout info)
    /\ sideLength layout = lay_sideLength (panelLayout info)
    /\ width (bounds layout) = maxX (bounds layout) - minX (bounds layout)
    /\ height (bounds layout) = maxY (bounds layout) - minY (bounds layout)
    /\ 0 <= width (bounds layout) /\ 0 <= height (bounds layout)
    /\ (forall p, In p (positions layout) ->
          minX (bounds layout) <= x p <= maxX (bounds layout)
          /\ minY (bounds layout) <= y p <= maxY (bounds layout))
    /\ (positions layout <> [] ->
          numPanels layout = lay_numPanels (panelLayout info)
          /\ In (minX (bounds layout)) (map x (positions layout))
          /\ In (maxX (bounds layout)) (map x (positions layout))
          /\ In (minY (bounds layout)) (map y (positions layout))
          /\ In (maxY (bounds layout)) (map y (positions layout)))
    /\ (positions layout = [] ->
          numPanels layout = 0 /\ bounds layout = mkBounds 0 0 0 0 0 0).
Proof.
  intros H. unfold getPanelLayout, bind. rewrite getInfo_run, H.
  cbn [fst snd].
  destruct (positionData (panelLayout info)) as [|p0 ps] eqn:E.
  - eexists. split; [reflexivity|]. cbn.
    repeat split; try reflexivity; try lra; try contradiction;
      try (intros []); try congruence.
  - set (panels := p0 :: ps) in *.
    assert (Hxs : map x panels <> []) by discriminate.
    assert (Hys : map y panels <> []) by discriminate.
    destruct (Math_max_of_spec _ Hxs) as [HmaxX HinMaxX].
    destruct (Math_min_of_spec _ Hxs) as [HminX HinMinX].
    destruct (Math_max_of_spec _ Hys) as [HmaxY HinMaxY].
    destruct (Math_min_of_spec _ Hys) as [HminY HinMinY].
    change (List.length panels =? 0)%nat with false. cbv iota zeta.
    eexists. split; [reflexivity|].
    cbn [positions sideLength bounds numPanels width height minX maxX minY maxY].
    split; [reflexivity|]. split; [reflexivity|].
    split; [reflexivity|]. split; [reflexivity|].
    split; [pose proof (HmaxX _ HinMinX); lra|].
    split; [pose proof (HmaxY _ HinMinY); lra|].
    split; [|split].
    + intros p Hp.
      pose proof (HminX _ (in_map x _ _ Hp)). pose proof (HmaxX _ (in_map x _ _ Hp)).
      pose proof (HminY _ (in_map y _ _ Hp)). pose proof (HmaxY _ (in_map y _ _ Hp)).
      repeat split; assumption.
    + intros _. repeat split; assumption.
    + discriminate.
Qed.

End LayoutBounds.

Lemma getPanelLayout_bounds_witness :
  exists layout,
    @NanoleafClient.getPanelLayout Sim.net (Sim.start "*Dynamic*")
    = (NanoleafClient.afterRead (Sim.start "*Dynamic*")
         (NanoleafClient.world (Sim.start "*Dynamic*")),
       Ok layout)
    /\ bounds layout = mkBounds 0 134 0 30 134 30.
Proof.
  destruct (@getPanelLayout_bounds Sim.net (Sim.start "*Dynamic*")
              (NanoleafClient.world (Sim.start "*Dynamic*"))
              (Sim.shapes "Shapes 1A2B" "*Dynamic*") eq_refl)
    as [layout [Hrun _]].
  exists layout. split; [exact Hrun|].
  vm_compute in Hrun. injection Hrun as <-. reflexivity.
Defined.

Section StreamingRuns.

Context {N : Network} {U : Streaming.Udp}.

Import NanoleafClient Streaming.

(** [initializeStreaming], request by request. *)
Lemma initializeStreaming_run (st : Streaming.St) :
  initializeStreaming st
  = (let c := this (http st) in
     let a1 := http_get_root (ip c) (authToken c) (world (http st)) in
     match snd a1 with
     | None =>
         (Streaming.mkSt
            (NanoleafClient.mkSt c (fst a1) (sent (http st) ++ [readState (ip c)]))
            (air st) (handed st),
          Rejected (Thrown HttpError))
     | Some info =>
         let c1 := withProtocolVersion c (versionOf info) in
         let a2 := http_get_root (ip c) (authToken c) (fst a1) in
         let sent2 := (sent (http st) ++ [readState (ip c)]) ++ [readState (ip c)] in
         match snd a2 with
         | None =>
             (Streaming.mkSt (NanoleafClient.mkSt c1 (fst a2) sent2)
                (air st) (handed st),
              Rejected (Thrown HttpError))
         | Some info' =>
             let c2 := withPanelIds c1 (allPanelIds info') in
             let a3 := http_put (ip c) (authToken c) "/effects"
                         (ExtControlWrite (versionName (versionOf info)))
                         (fst a2) in
             let sent3 := sent2 ++ [extControl (ip c) (versionOf info)] in
             if snd a3 then
               (Streaming.mkSt
                  (NanoleafClient.mkSt (withSocket c2 true) (fst a3) sent3)
                  (air st) (handed st),
                Fulfilled tt)
             else
               (Streaming.mkSt (NanoleafClient.mkSt c2 (fst a3) sent3)
                  (air st) (handed st),
                Rejected (Thrown HttpError))
         end
     end).
Proof.
  destruct st as [[c w log] a h].
  unfold initializeStreaming, Streaming.bind, lift, getThis, setThis.
  rewrite getInfo_run. unfold afterRead.
  cbn [http air handed this world sent fst snd].
  destruct (http_get_root (ip c) (authToken c) w) as [w1 [info|]];
    cbn [fst snd]; [|reflexivity].
  unfold getPanelLayout, NanoleafClient.bind. rewrite getInfo_run.
  unfold afterRead.
  cbn [http air handed this world sent fst snd withProtocolVersion ip authToken].
  destruct (http_get_root (ip c) (authToken c) w1) as [w2 [info'|]];
    cbn [fst snd]; [|reflexivity].
  unfold NanoleafClient.ret, allPanelIds.
  destruct (List.length (positionData (panelLayout info')) =? 0)%nat eqn:El.
  - assert (E : positionData (panelLayout info') = []).
    { destruct (positionData (panelLayout info')); [reflexivity|discriminate]. }
    rewrite E. cbn [positions map].
    rewrite client_put_run.
    cbn [http air handed this world sent fst snd withProtocolVersion
         withPanelIds ip authToken protocolVersion].
    destruct (http_put _ _ _ _ _) as [w3 [|]]; reflexivity.
  - cbn [positions].
    rewrite client_put_run.
    cbn [http air handed this world sent fst snd withProtocolVersion
         withPanelIds ip authToken protocolVersion].
    destruct (http_put _ _ _ _ _) as [w3 [|]]; reflexivity.
Qed.

End StreamingRuns.

Section StreamingTheorems.

Context {N : Network} {U : Streaming.Udp}.

Import NanoleafClient Streaming.


(** The rest of [streamColors], once the socket is open. *)
Lemma open_socket_run (panelColors : PanelColors) (st : Streaming.St) :
  streamingSocket (this (http st)) = true ->
  streamColors panelColors st
  = (let c := this (http st) in
     match buildPacket (protocolVersion c) panelColors with
     | Ok packet =>
         let datagram :=
           mkDatagram packet (streamingPort (protocolVersion c)) (ip c) in
         (Streaming.mkSt (http st) (fst (udp_send datagram (air st)))
            (handed st ++ [datagram]),
          if snd (udp_send datagram (air st)) then Fulfilled tt
          else Rejected SendError)
     | Throw e => (st, Rejected (Thrown e))
     end).
Proof.
  intros Hopen. unfold streamColors, Streaming.bind, getThis.
  rewrite Hopen. cbn [negb]. unfold Streaming.ret, liftResult, buildPacket,
    streamingPort, socket_send. cbv zeta.
  destruct (if (protocolVersion (this (http st)) =? 1)%nat
            then buildV1Packet panelColors else buildV2Packet panelColors)
    as [packet|e]; [|reflexivity].
  destruct (udp_send _ _) as [a ok]. reflexivity.
Qed.

(** X14. With the socket open, [streamColors] sends no request and
    leaves the object as it is.  It hands exactly one datagram to the
    socket, for the address of the device: the packet of the protocol
    version of the object, to port 60221 for version 1 and to port
    60222 otherwise; and it is rejected exactly when the socket reports
    an error.  When the packet cannot be built, nothing is handed to the
    socket and the error of the write is the rejection. *)
Theorem streamColors_open (panelColors : PanelColors) (st : Streaming.St) :
  streamingSocket (this (http st)) = true ->
  let c := this (http st) in
  let st' := fst (streamColors panelColors st) in
  http st' = http st
  /\ match buildPacket (protocolVersion c) panelColors with
     | Ok packet =>
         let datagram :=
           mkDatagram packet
             (if (protocolVersion c =? 1)%nat then 60221%Z else 60222%Z)
             (ip c) in
         handed st' = handed st ++ [datagram]
         /\ snd (streamColors panelColors st)
            = (if snd (udp_send datagram (air st)) then Fulfilled tt
               else Rejected SendError)
     | Throw e =>
         st' = st /\ snd (streamColors panelColors st) = Rejected (Thrown e)
     end.
Proof.
  intros Hopen c st'. subst st'.
  rewrite (open_socket_run panelColors st Hopen). cbv zeta. fold c.
  destruct (buildPacket (protocolVersion c) panelColors) as [packet|e];
    cbn [fst snd http handed]; repeat split.
Qed.

(** X15. With the socket closed, [streamColors] initialises first.
    When the initialisation is rejected, so is [streamColors], with the
    same error; nothing is handed to the socket, and the socket stays
    closed, so that the next call initialises again.  When it is
    fulfilled, the call goes on as with the socket open, in the state
    the initialisation left. *)
Theorem streamColors_closed (panelColors : PanelColors) (st : Streaming.St) :
  streamingSocket (this (http st)) = false ->
  let st1 := fst (initializeStreaming st) in
  match snd (initializeStreaming st) with
  | Rejected f =>
      streamColors panelColors st = (st1, Rejected f)
      /\ handed st1 = handed st
      /\ streamingSocket (this (http st1)) = false
  | Fulfilled _ =>
      streamColors panelColors st = streamColors panelColors st1
      /\ streamingSocket (this (http st1)) = true
      /\ handed st1 = handed st
  end.
Proof.
  intros Hclosed st1.
  pose proof (initializeStreaming_run st) as Hrun.
  assert (Hstep : streamColors panelColors st
                  = match initializeStreaming st with
                    | (s, Fulfilled _) => streamColors panelColors s
                    | (s, Rejected f) => (s, Rejected f)
                    end).
  { unfold streamColors at 1, Streaming.bind at 1, getThis at 1.
    rewrite Hclosed. cbn [negb]. unfold Streaming.bind at 1.
    destruct (initializeStreaming st) as [s [u|f]] eqn:E; [|reflexivity].
    assert (Hs : streamingSocket (this (http s)) = true).
    { clear E. cbv zeta in Hrun.
      destruct (snd (http_get_root _ _ (world (http st)))); [|discriminate].
      destruct (snd (http_get_root _ _ (fst _))); [|discriminate].
      destruct (snd (http_put _ _ _ _ _)); [|discriminate].
      cbv iota beta in Hrun. inversion Hrun. reflexivity. }
    unfold streamColors, Streaming.bind, getThis. rewrite Hs. reflexivity. }
  subst st1. rewrite Hstep. clear Hstep.
  rewrite Hrun. cbv zeta.
  destruct (snd (http_get_root _ _ (world (http st)))); cbn [fst snd];
    [|repeat split; exact Hclosed].
  destruct (snd (http_get_root _ _ (fst _))); cbn [fst snd];
    [|repeat split; exact Hclosed].
  destruct (snd (http_put _ _ _ _ _)); cbn [fst snd];
    repeat split; exact Hclosed.
Qed.

(** X16. [streamSolidColor] on an object that knows no panel id reads
    the layout with one [GET /], keeps the ids of all its panels, and
    streams the map that gives the colour to each of them: every panel
    of the layout is addressed, the controllers included, and every
    entry has the colour. *)
Theorem streamSolidColor_covers (color : RGBColor) (st : Streaming.St)
  (w : World) (info : DeviceInfo) :
  panelIds (this (http st)) = [] ->
  http_get_root (ip (this (http st))) (authToken (this (http st)))
    (world (http st)) = (w, Some info) ->
  let c := this (http st) in
  let panelColors := solid (allPanelIds info) color in
  streamSolidColor color st
  = streamColors panelColors
      (Streaming.mkSt
         (NanoleafClient.mkSt (withPanelIds c (allPanelIds info)) w
            (sent (http st) ++ [readState (ip c)]))
         (air st) (handed st))
  /\ (forall p, In p (positionData (panelLayout info)) ->
        exists k, In k (JSMap.keys panelColors) /\ eqb k (panelId p) = true)
  /\ Forall (fun e => snd e = color) (JSMap.entries panelColors).
Proof.
  intros Hids Hget c panelColors. split; [|split].
  - unfold streamSolidColor, Streaming.bind at 1, getThis at 1.
    rewrite Hids. cbn [List.length Nat.eqb].
    unfold Streaming.bind at 1. unfold Streaming.bind at 1.
    destruct (getPanelLayout_positions (http st) w info Hget)
      as [layout [Hrun Hpos]].
    unfold lift. rewrite Hrun. unfold afterRead.
    unfold Streaming.bind, getThis, setThis.
    cbn [http air handed this world sent fst snd panelIds withPanelIds].
    rewrite Hpos. reflexivity.
  - intros p Hp. apply fill_covers. unfold allPanelIds.
    apply in_map. exact Hp.
  - apply fill_values. constructor.
Qed.

End StreamingTheorems.

Lemma streamColors_open_witness :
  NanoleafClient.streamingSocket
    (NanoleafClient.this (Streaming.http StreamingSamples.opened)) = true
  /\ Streaming.handed
       (fst (Streaming.streamColors Wire.onePanel StreamingSamples.opened))
     = [Streaming.mkDatagram
          [0; 1; 0; 3; 1; 2; 3; 0; 0; 1]%Z 60222%Z "192.168.1.20"]
  /\ snd (Streaming.streamColors Wire.onePanel StreamingSamples.opened)
     = Streaming.Fulfilled tt.
Proof.
  split; [reflexivity|].
  pose proof (streamColors_open Wire.onePanel StreamingSamples.opened eq_refl)
    as [_ H].
  vm_compute in H. vm_compute. exact H.
Defined.

Lemma streamColors_closed_witness :
  NanoleafClient.streamingSocket
    (NanoleafClient.this (Streaming.http StreamingSamples.closed)) = false
  /\ Streaming.streamColors Wire.onePanel StreamingSamples.closed
     = Streaming.streamColors Wire.onePanel
         (fst (Streaming.initializeStreaming StreamingSamples.closed)).
Proof.
  split; [reflexivity|].
  pose proof (streamColors_closed Wire.onePanel StreamingSamples.closed eq_refl)
    as H.
  change (snd (Streaming.initializeStreaming StreamingSamples.closed))
    with (@Streaming.Fulfilled unit tt) in H.
  exact (proj1 H).
Defined.

Lemma streamSolidColor_covers_witness :
  exists k,
    In k (JSMap.keys
            (NanoleafClient.solid
               (Streaming.allPanelIds (Sim.shapes "Shapes 1A2B" "*Dynamic*"))
               (mkRGB 9 9 9)))
    /\ eqb k 0 = true.
Proof.
  destruct (streamSolidColor_covers (mkRGB 9 9 9) StreamingSamples.closed
              (NanoleafClient.world (Streaming.http StreamingSamples.closed))
              (Sim.shapes "Shapes 1A2B" "*Dynamic*") eq_refl eq_refl)
    as [_ [Hcover _]].
  exact (Hcover (mkPanel 0 30 30 0 12) (or_intror (or_intror (or_introl eq_refl)))).
Defined.

Section FrontendFacts.

Context {N : Network}.

Import DeviceManager Frontend.





End FrontendFacts.

Section FrontendTheorems.

Context {N : Network}.

Import DeviceManager Frontend.






(** X18. The route [POST /devices] answers 400 without a request and
    without a change when the address or the token is missing or empty.
    Otherwise it does to the registry and to the network what the tool
    [add_device] does, and answers 201 where the tool registers, 409
    where the tool finds the alias held, and 502 where the tool cannot
    connect. *)
Theorem postDevices_as_add_device (body : DeviceFields) (devices : t)
  (net : Net) :
  if given (f_ip body) && given (f_authToken body) then
    exists result,
      add_device (text (f_ip body)) (text (f_authToken body)) (f_alias body)
        devices net
      = (fst (postDevices body devices net), result)
      /\ asTool (snd (postDevices body devices net)) = Some result
      /\ status (snd (postDevices body devices net))
         = match result with
           | Registered _ => 201%nat
           | AlreadyRegistered _ => 409%nat
           | CannotConnect _ => 502%nat
           end
  else postDevices body devices net = (devices, net, BadRequest).
Proof.
  unfold postDevices, add_device.
  destruct (given (f_ip body)); destruct (given (f_authToken body));
    cbn [andb orb negb]; try reflexivity.
  cbv zeta.
  destruct (testGetInfo (text (f_ip body)) (text (f_authToken body)) net)
    as [net' [info|e]].
  - destruct (has _ devices).
    + eexists. cbn. repeat split.
    + destruct (register _ _ _ devices) as [device0 devices1].
      destruct (describe device0 info devices1) as [device' devices2].
      eexists. cbn. repeat split.
  - eexists. cbn. repeat split.
Qed.

End FrontendTheorems.

Section Loading.

Import DeviceManager Frontend.








End Loading.

Local Open Scope string_scope.



Local Close Scope string_scope.

Section AnimationFacts.

Import Animation.

Lemma ofNat_succ k : ofNat (S k) == ofNat k + 1.
Proof.
  unfold ofNat. rewrite Nat2Z.inj_succ. unfold Z.succ.
  rewrite inject_Z_plus. reflexivity.
Qed.

Lemma ofNat_pos k : (0 < k)%nat -> 0 < ofNat k.
Proof.
  intros H. unfold ofNat. change 0 with (inject_Z 0).
  rewrite <- Zlt_Qlt. lia.
Qed.

Lemma total_constant p entries :
  Forall (fun e => probability e = p) entries ->
  total entries == ofNat (List.length entries) * p.
Proof.
  induction 1 as [|e entries He _ IH]; simpl.
  - unfold ofNat. simpl. ring.
  - rewrite IH, He. change (ofNat (S (List.length entries)))
      with (ofNat (S (List.length entries))).
    rewrite ofNat_succ. ring.
Qed.

Lemma share_bounds k :
  (0 < k)%nat ->
  100 - ofNat k / 2 < ofNat k * share k /\ ofNat k * share k <= 100 + ofNat k / 2.
Proof.
  intros Hk. pose proof (ofNat_pos k Hk) as Hpos.
  unfold share, Math_round.
  pose proof (Qfloor_le (100 / ofNat k + (1 # 2))) as Hlo.
  pose proof (Qlt_floor (100 / ofNat k + (1 # 2))) as Hhi.
  rewrite inject_Z_plus in Hhi. change (inject_Z 1) with 1 in Hhi.
  assert (Hx : ofNat k * (100 / ofNat k) == 100).
  { apply Qmult_div_r. lra. }
  set (x := 100 / ofNat k) in *.
  set (p := inject_Z (Qfloor (x + (1 # 2)))) in *.
  set (n := ofNat k) in *.
  unfold Qdiv. change (/ 2) with (1 # 2).
  split; nra.
Qed.

End AnimationFacts.

Section AnimationTheorems.

Context {D : Animation.Device}.

Import Animation.

(** X20. The palette of an animation has one entry for each colour,
    in order, with the hue and the saturation of the colour, and every
    entry has the same probability: 100 divided by the number of
    colours, rounded.  The probabilities therefore add up to a value
    within half the number of colours of 100, and not to 100 in
    general. *)
Theorem palette_shares (options : AnimationOptions) :
  palette options <> [] ->
  let n := List.length (palette options) in
  let entries := paletteOf options in
  List.length entries = n
  /\ map e_hue entries = map hue (palette options)
  /\ map e_saturation entries = map saturation (palette options)
  /\ Forall (fun e => probability e = share n) entries
  /\ total entries == ofNat n * share n
  /\ 100 - ofNat n / 2 < total entries
  /\ total entries <= 100 + ofNat n / 2.
Proof.
  intros Hne n entries.
  assert (Hlen : List.length entries = n) by apply length_map.
  assert (Hall : Forall (fun e => probability e = share n) entries).
  { apply Forall_forall. intros e He. apply in_map_iff in He.
    destruct He as [color [<- _]]. reflexivity. }
  assert (Htotal : total entries == ofNat n * share n).
  { rewrite (total_constant _ _ Hall), Hlen. reflexivity. }
  assert (Hn : (0 < n)%nat).
  { subst n. destruct (palette options); [congruence | simpl; lia]. }
  destruct (share_bounds n Hn) as [Hlo Hhi].
  split; [exact Hlen|].
  split; [unfold entries, paletteOf; rewrite map_map; reflexivity|].
  split; [unfold entries, paletteOf; rewrite map_map; reflexivity|].
  split; [exact Hall|]. split; [exact Htotal|].
  split; rewrite Htotal; assumption.
Qed.

(** X21. The brightness of a palette entry is the brightness of its
    colour scaled by the brightness of the animation, in hundredths and
    rounded.  With both between 0 and 100 it is between 0 and 100, and
    with the brightness of the animation left out (or 100) a whole
    brightness is kept. *)
Theorem palette_brightness (options : AnimationOptions) :
  let scale := orDefault (opt_brightness options) 100 in
  map e_brightness (paletteOf options) = map (scaled scale) (palette options)
  /\ (forall color,
        0 <= brightness color <= 100 -> 0 <= scale <= 100 ->
        0 <= scaled scale color <= 100)
  /\ (forall color,
        Wire.whole (brightness color) -> scale == 100 ->
        scaled scale color == brightness color).
Proof.
  intros scale. split; [|split].
  - unfold paletteOf. rewrite map_map. reflexivity.
  - intros color Hb Hs. unfold scaled.
    pose proof (round_bounds 0 100 (brightness color * scale / 100)) as Hr.
    change (inject_Z 0) with 0 in Hr. change (inject_Z 100) with 100 in Hr.
    apply Hr; const_div; nra.
  - intros color Hw Hs. unfold scaled, Math_round.
    unfold Wire.whole in Hw.
    assert (E : Qfloor (brightness color * scale / 100 + (1 # 2))
                = Qfloor (brightness color)).
    { apply floor_unique.
      - rewrite Hw, Hs. const_div. lra.
      - rewrite inject_Z_succ, Hw, Hs. const_div. lra. }
    rewrite E. exact Hw.
Qed.

(** X22. [createAnimation] first writes the animation and selects it
    only once the device has accepted the write: a refused write is the
    only request, and the error of the call.  [displayAnimation] sends
    one write that carries the plugin, the palette and the plugin
    options [createAnimation] writes for the same options, and always
    loops.  The plugin options are two, the transition time of the
    speed among them. *)
Theorem createAnimation_then_select (options : AnimationOptions) (st : St) :
  exists pluginOptions,
    let uuid := PLUGIN_UUIDS (style options) in
    let add :=
      AddWrite (name options) uuid (paletteOf options) pluginOptions
        (orDefault (loop options) true) in
    let shown := DisplayWrite uuid (paletteOf options) pluginOptions true in
    List.length pluginOptions = 2%nat
    /\ In (mkOption "transTime"
             (Num (transTime
                     (SPEED_MAPPINGS (orDefault (speed options) medium)))))
          pluginOptions
    /\ carried shown = carried add
    /\ sent (fst (displayAnimation options st))
       = sent st ++ [mkEffectsRequest (ip st) shown]
    /\ (if snd (put_effects (ip st) (authToken st) add (world st))
        then sent (fst (createAnimation options st))
             = sent st ++ [mkEffectsRequest (ip st) add;
                           mkEffectsRequest (ip st) (Select (name options))]
        else sent (fst (createAnimation options st))
             = sent st ++ [mkEffectsRequest (ip st) add]
             /\ snd (createAnimation options st) = Throw HttpError).
Proof.
  unfold createAnimation, displayAnimation, Animation.bind, setEffect,
    client_put_effects.
  cbv zeta.
  fold (paletteOf options).
  unfold paletteOf, scaled, share.
  match goal with
  | |- context [AddWrite _ _ _ ?o _] => exists o
  end.
  split; [destruct (style options); reflexivity|].
  split; [destruct (style options); simpl; auto|].
  split; [reflexivity|].
  split.
  - destruct (put_effects _ _ (DisplayWrite _ _ _ _) _) as [w [|]]; reflexivity.
  - destruct (put_effects _ _ (AddWrite _ _ _ _ _) _) as [w [|]]; cbn [snd fst].
    + cbn [ip authToken world sent].
      destruct (put_effects _ _ (Select _) _) as [w' [|]]; cbn [fst sent];
        rewrite <- app_assoc; reflexivity.
    + split; reflexivity.
Qed.

End AnimationTheorems.

Lemma palette_shares_witness :
  Animation.palette
    (Animation.mkOptions "Sunset" Animation.fade
       [mkHSB 10 100 100; mkHSB 30 90 80; mkHSB 50 80 60]
       None None None None) <> []
  /\ Animation.total
       (Animation.paletteOf
          (Animation.mkOptions "Sunset" Animation.fade
             [mkHSB 10 100 100; mkHSB 30 90 80; mkHSB 50 80 60]
             None None None None)) == 99.
Proof.
  assert (Hne : Animation.palette
                  (Animation.mkOptions "Sunset" Animation.fade
                     [mkHSB 10 100 100; mkHSB 30 90 80; mkHSB 50 80 60]
                     None None None None) <> []) by discriminate.
  split; [exact Hne|].
  destruct (palette_shares _ Hne) as [_ [_ [_ [_ [Htotal _]]]]].
  rewrite Htotal. reflexivity.
Defined.

Lemma palette_brightness_witness :
  0 <= 80 <= 100 /\ 0 <= 50 <= 100
  /\ 0 <= Animation.scaled 50 (mkHSB 30 90 80) <= 100.
Proof.
  assert (Hb : 0 <= 80 <= 100) by lra.
  assert (Hs : 0 <= 50 <= 100) by lra.
  split; [exact Hb|]. split; [exact Hs|].
  exact (proj1 (proj2 (palette_brightness
                         (Animation.mkOptions "Sunset" Animation.fade
                            [mkHSB 30 90 80] None None (Some 50) None)))
           (mkHSB 30 90 80) Hb Hs).
Defined.

Section PanelArrays.

Import NanoleafClient Routes.

Lemma get_setPanel_same id color (m : PanelColors) :
  JSMap.get eqb id (setPanel id color m) = Some color.
Proof.
  unfold setPanel.
  induction m as [|[[k v]|] rest IH]; simpl.
  - rewrite eqb_refl. reflexivity.
  - destruct (eqb k id) eqn:E; simpl; rewrite E; [reflexivity | exact IH].
  - exact IH.
Qed.

Lemma get_setPanel_other id other color (m : PanelColors) :
  eqb id other = false ->
  JSMap.get eqb other (setPanel id color m) = JSMap.get eqb other m.
Proof.
  intros Hne. unfold setPanel.
  induction m as [|[[k v]|] rest IH]; simpl.
  - rewrite Hne. reflexivity.
  - destruct (eqb k id) eqn:E; simpl.
    + assert (Ek : eqb k other = false).
      { destruct (eqb k other) eqn:Eo; [|reflexivity].
        apply eqb_true in E. apply eqb_true in Eo.
        apply eqb_false in Hne. exfalso. apply Hne.
        rewrite <- E, Eo. reflexivity. }
      rewrite Ek. reflexivity.
    + destruct (eqb k other); [reflexivity | exact IH].
  - exact IH.
Qed.

Lemma setPanel_size id color (m : PanelColors) :
  (JSMap.size (setPanel id color m) <= S (JSMap.size m))%nat.
Proof.
  unfold setPanel, JSMap.size.
  induction m as [|[[k v]|] rest IH]; simpl.
  - lia.
  - destruct (eqb k id); simpl; lia.
  - exact IH.
Qed.

Lemma filled_size panels : forall m,
  (JSMap.size (filled panels m) <= JSMap.size m + List.length panels)%nat.
Proof.
  induction panels as [|p panels IH]; intros m; simpl; [lia|].
  specialize (IH (setPanel (pc_panelId p) (colorOf p) m)).
  pose proof (setPanel_size (pc_panelId p) (colorOf p) m). lia.
Qed.

Lemma filled_keeps id color panels : forall m,
  (forall q, In q panels -> eqb (pc_panelId q) id = false) ->
  JSMap.get eqb id m = Some color ->
  JSMap.get eqb id (filled panels m) = Some color.
Proof.
  induction panels as [|p panels IH]; intros m Hother Hget; [exact Hget|].
  simpl. apply IH.
  - intros q Hq. apply Hother. right. exact Hq.
  - rewrite get_setPanel_other; [exact Hget|].
    apply Hother. left. reflexivity.
Qed.

Lemma filled_keys panels : forall m k,
  In k (JSMap.keys (filled panels m)) ->
  In k (JSMap.keys m) \/ exists p, In p panels /\ k = pc_panelId p.
Proof.
  induction panels as [|p panels IH]; intros m k Hin; [left; exact Hin|].
  simpl in Hin. destruct (IH _ _ Hin) as [H|[q [Hq Ek]]].
  - apply setPanel_keys in H. destruct H as [H|H]; [left; exact H|].
    right. exists p. split; [left; reflexivity | exact H].
  - right. exists q. split; [right; exact Hq | exact Ek].
Qed.

Lemma filled_app before after (m : PanelColors) :
  filled (before ++ after) m = filled after (filled before m).
Proof. apply fold_left_app. Qed.

(** X23. The map a tool or a route builds from an array of panel
    colours has at most one entry for each element and only ids of the
    array as keys.  Of the elements with the same panel id the last one
    gives the colour of that panel, so the map can be smaller than the
    array the answer counts. *)
Theorem panelColorsOf_last_wins (panels : list PanelColor) :
  (JSMap.size (panelColorsOf panels) <= List.length panels)%nat
  /\ (forall k, In k (JSMap.keys (panelColorsOf panels)) ->
        exists p, In p panels /\ k = pc_panelId p)
  /\ (forall before p after,
        panels = before ++ p :: after ->
        (forall q, In q after -> eqb (pc_panelId q) (pc_panelId p) = false) ->
        JSMap.get eqb (pc_panelId p) (panelColorsOf panels)
        = Some (colorOf p)).
Proof.
  change (panelColorsOf panels) with (filled panels JSMap.empty).
  split; [|split].
  - pose proof (filled_size panels JSMap.empty) as H. simpl in H. exact H.
  - intros k Hin. destruct (filled_keys _ _ _ Hin) as [[]|H]. exact H.
  - intros before p after -> Hlast.
    rewrite filled_app. simpl.
    apply filled_keeps; [exact Hlast | apply get_setPanel_same].
Qed.

Lemma panelColorsOf_last_wins_witness :
  JSMap.get eqb 7
    (panelColorsOf [mkPanelColor 7 255 0 0; mkPanelColor 9 0 255 0;
                    mkPanelColor 7 0 0 255])
  = Some (mkRGB 0 0 255).
Proof.
  apply (proj2 (proj2 (panelColorsOf_last_wins _))
           [mkPanelColor 7 255 0 0; mkPanelColor 9 0 255 0]
           (mkPanelColor 7 0 0 255) [] eq_refl).
  intros q [].
Defined.

End PanelArrays.

Section PanelWrites.

Context {N : Network}.

Import NanoleafClient.

(** X24. [setPanelColors] sends one [PUT /effects] with a static
    write and leaves the object as it is.  The descriptor of the write
    holds the number of entries of the map followed by seven numbers
    for each entry, and reads back as the entries of the map, in
    order. *)
Theorem setPanelColors_descriptor (panelColors : PanelColors) (st : St) :
  let run := setPanelColors panelColors st in
  let data := animData (JSMap.entries panelColors) in
  sent (fst run)
  = sent st ++ [mkRequest (ip (this st)) "/effects" (PUT (StaticWrite data))]
  /\ this (fst run) = this st
  /\ List.length data = (1 + 7 * JSMap.size panelColors)%nat
  /\ hd 0 data = ofNat (JSMap.size panelColors)
  /\ Descriptor.painted data = JSMap.entries panelColors
  /\ (snd run = Ok tt \/ snd run = Throw HttpError).
Proof.
  intros run data. subst run. unfold setPanelColors. fold data.
  rewrite client_put_run. cbn [fst snd sent this].
  split; [reflexivity|]. split; [reflexivity|].
  split; [|split; [|split]].
  - unfold data. rewrite animData_flat. cbn [List.length].
    rewrite (flat_map_length_const _ 7) by reflexivity.
    unfold JSMap.size. rewrite Nat.mul_comm. reflexivity.
  - unfold data. rewrite animData_flat. reflexivity.
  - apply painted_animData.
  - destruct (snd (http_put _ _ _ _ _)); [left | right]; reflexivity.
Qed.

End PanelWrites.

Section StateRouteFacts.

Import NanoleafClient Routes.

Variable parseColor : string -> option HSBColor.

(** X25. Once the device is resolved, [PUT /device/state] passes the
    switch and the colour temperature on as given.  A hue, a saturation
    or a brightness given in the body is passed on as given, whatever
    the colour; a colour fills in only those of the three that are
    absent.  The body is refused only for a colour that is not empty
    and does not parse, and then also when all three are given. *)
Theorem stateOf_explicit_wins (body : StateFields) :
  match stateOf parseColor body with
  | None =>
      exists color,
        s_color body = Some color /\ color <> EmptyString
        /\ parseColor color = None
  | Some arg =>
      a_on arg = s_on body /\ a_ct arg = s_ct body
      /\ (forall v, s_hue body = Some v -> a_hue arg = Some v)
      /\ (forall v, s_saturation body = Some v -> a_saturation arg = Some v)
      /\ (forall v, s_brightness body = Some v -> a_brightness arg = Some v)
      /\ match s_color body with
         | Some color =>
             if truthy color then
               exists parsed,
                 parseColor color = Some parsed
                 /\ (s_hue body = None -> a_hue arg = Some (hue parsed))
                 /\ (s_saturation body = None ->
                     a_saturation arg = Some (saturation parsed))
                 /\ (s_brightness body = None ->
                     a_brightness arg = Some (brightness parsed))
             else
               a_hue arg = s_hue body
               /\ a_saturation arg = s_saturation body
               /\ a_brightness arg = s_brightness body
         | None =>
             a_hue arg = s_hue body
             /\ a_saturation arg = s_saturation body
             /\ a_brightness arg = s_brightness body
         end
  end.
Proof.
  unfold stateOf. cbv zeta.
  destruct (s_color body) as [color|]; [|cbn; intuition auto].
  destruct (truthy color) eqn:Et; [|cbn; intuition auto].
  destruct (parseColor color) as [parsed|] eqn:Ep.
  - cbn [a_on a_ct a_hue a_saturation a_brightness].
    split; [reflexivity|]. split; [reflexivity|].
    split; [intros v ->; reflexivity|].
    split; [intros v ->; reflexivity|].
    split; [intros v ->; reflexivity|].
    exists parsed. split; [reflexivity|].
    repeat split; intros ->; reflexivity.
  - exists color. split; [reflexivity|]. split; [|exact Ep].
    apply truthy_spec. exact Et.
Qed.

End StateRouteFacts.

Lemma stateOf_explicit_wins_witness :
  exists arg,
    Routes.stateOf (fun _ => Some (mkHSB 120 50 40))
      (Routes.mkStateFields None (Some "green"%string) None (Some 300) None None)
    = Some arg
    /\ NanoleafClient.a_hue arg = Some 300.
Proof.
  pose proof (stateOf_explicit_wins (fun _ => Some (mkHSB 120 50 40))
                (Routes.mkStateFields None (Some "green"%string) None
                   (Some 300) None None)) as H.
  destruct (Routes.stateOf _ _) as [arg|] eqn:E.
  - exists arg. split; [reflexivity|].
    destruct H as [_ [_ [Hhue _]]]. exact (Hhue 300 eq_refl).
  - vm_compute in E. discriminate E.
Defined.

Section RefreshRequests.

Context {N : Network}.

Import DeviceManager RefreshSteps Inventory.

Lemma refreshDevice_sent (devices : t) index device net :
  sent (snd (refreshDevice index device devices net))
  = sent net ++ [probe device].
Proof.
  unfold refreshDevice, fetchInfo. rewrite getInfo_run.
  cbn [fst snd NanoleafClient.this NanoleafClient.world NanoleafClient.sent].
  destruct (snd (http_get_root _ _ _)) as [info|]; [|reflexivity].
  cbv zeta.
  destruct (String.eqb _ _ && truthy _); [|reflexivity].
  destruct (negb _); reflexivity.
Qed.

Lemma candidates_live (slots : t) :
  (List.length (filter candidate slots) <= List.length (JSMap.entries slots))%nat.
Proof.
  induction slots as [|[[k d]|] rest IH]; simpl; [lia| |exact IH].
  destruct (String.eqb (alias d) (ip d)); simpl; lia.
Qed.

(** What a body of the loop leaves ahead. *)
Lemma refreshDevice_ahead (devices : t) index key device net :
  wf devices ->
  nth_error devices index = Some (Some (key, device)) ->
  let devices1 := fst (refreshDevice index device devices net) in
  (liveAhead index devices <= S (liveAhead (S index) devices1))%nat
  /\ (S (liveAhead (S index) devices1 + candidatesAhead (S index) devices1)
      <= liveAhead index devices + candidatesAhead index devices)%nat.
Proof.
  intros Hwf Hnth devices1. subst devices1.
  rewrite (refreshDevice_spec devices index key device net Hwf Hnth).
  unfold liveAhead, candidatesAhead.
  rewrite (skipn_nth _ _ _ Hnth).
  set (rest := skipn (S index) devices).
  cbn [JSMap.entries filter List.length].
  destruct (fetchInfo device net) as [net' [info|e]]; cbn [fst].
  2: { fold rest. destruct (candidate (Some (key, device))); simpl; lia. }
  destruct (upgradable devices device info) eqn:Hup.
  - destruct (upgraded_alias devices index key device info Hwf Hnth Hup)
      as [_ Hname].
    assert (Hcand : candidate (Some (key, device)) = true).
    { unfold upgradable in Hup. apply andb_true_iff in Hup.
      destruct Hup as [Hup _]. apply andb_true_iff in Hup.
      destruct Hup as [Ea _]. exact Ea. }
    rewrite Hcand.
    assert (Hlen : (S index <= List.length (JSMap.emptied index devices))%nat).
    { rewrite emptied_length. apply Nat.le_succ_l. apply nth_error_Some.
      rewrite Hnth. discriminate. }
    rewrite skipn_app.
    replace (S index - List.length (JSMap.emptied index devices))%nat with 0%nat
      by lia.
    rewrite skipn_emptied. fold rest.
    rewrite skipn_O, filter_app, (entries_app _ _ rest), !length_app.
    assert (Hnew : String.eqb (info_name info) (ip device) = false)
      by (apply String.eqb_neq; exact Hname).
    simpl. rewrite Hnew. simpl. lia.
  - rewrite skipn_update. fold rest.
    destruct (candidate (Some (key, device))); simpl; lia.
Qed.

Lemma refreshLoop_requests fuel : forall index (devices : t) net,
  wf devices ->
  (stepsLeft index devices < fuel)%nat ->
  exists devices' net' more,
    refreshLoop fuel index devices net = Some (devices', net')
    /\ sent net' = sent net ++ more
    /\ Forall isProbe more
    /\ (liveAhead index devices <= List.length more)%nat
    /\ (List.length more
        <= liveAhead index devices + candidatesAhead index devices)%nat.
Proof.
  induction fuel as [|fuel IH]; intros index devices net Hwf Hlt; [lia|].
  cbn [refreshLoop].
  destruct (nth_error devices index) as [[[key device]|]|] eqn:Hnth.
  - pose proof (refreshDevice_stepsLeft devices index key device net Hwf Hnth) as Hdec.
    pose proof (refreshDevice_wf devices index key device net Hwf Hnth) as Hwf'.
    pose proof (refreshDevice_ahead devices index key device net Hwf Hnth) as Hah.
    pose proof (refreshDevice_sent devices index device net) as Hsent.
    destruct (refreshDevice index device devices net) as [devices1 net1].
    cbn [fst snd] in *.
    destruct (IH (S index) devices1 net1 Hwf')
      as [devices' [net' [more [Hrun [Hs [Hp [Hlo Hhi]]]]]]]; [lia|].
    exists devices', net', (probe device :: more).
    split; [exact Hrun|]. split.
    { rewrite Hs, Hsent, <- app_assoc. reflexivity. }
    split.
    { constructor; [split; reflexivity | exact Hp]. }
    cbn [List.length]. lia.
  - rewrite (stepsLeft_next devices index _ Hnth) in Hlt. simpl in Hlt.
    destruct (IH (S index) devices net Hwf)
      as [devices' [net' [more [Hrun [Hs [Hp [Hlo Hhi]]]]]]]; [lia|].
    exists devices', net', more.
    unfold liveAhead, candidatesAhead in *.
    rewrite (skipn_nth _ _ _ Hnth).
    set (rest := skipn (S index) devices) in *.
    cbn [JSMap.entries filter candidate].
    repeat split; assumption.
  - exists devices, net, []. split; [reflexivity|].
    split; [rewrite app_nil_r; reflexivity|]. split; [constructor|].
    unfold liveAhead, candidatesAhead.
    apply nth_error_None in Hnth. rewrite skipn_all2 by exact Hnth.
    simpl. lia.
Qed.

(** X26. On every network [refreshNames] returns having sent requests
    of [getInfo] only: at least as many as there are registered devices,
    and at most twice as many. *)
Theorem refreshNames_probes (devices : t) (net : Net) :
  wf devices ->
  exists devices' net' more,
    refreshNames devices net = Some (devices', net')
    /\ sent net' = sent net ++ more
    /\ Forall isProbe more
    /\ (size devices <= List.length more <= 2 * size devices)%nat.
Proof.
  intros Hwf. unfold refreshNames.
  destruct (refreshLoop_requests (2 * List.length devices + 1) 0 devices net Hwf
              (stepsLeft_start devices))
    as [devices' [net' [more [Hrun [Hs [Hp [Hlo Hhi]]]]]]].
  exists devices', net', more.
  split; [exact Hrun|]. split; [exact Hs|]. split; [exact Hp|].
  unfold liveAhead, candidatesAhead in *. cbn [skipn] in *.
  pose proof (candidates_live devices). unfold size, JSMap.size. lia.
Qed.

End RefreshRequests.

Lemma refreshNames_probes_witness :
  DeviceManager.wf Samples.kitchenAndLoft
  /\ exists devices' net' more,
       DeviceManager.refreshNames Samples.kitchenAndLoft Samples.loftAnswers
       = Some (devices', net')
       /\ DeviceManager.sent net' = DeviceManager.sent Samples.loftAnswers ++ more
       /\ Forall Inventory.isProbe more
       /\ (DeviceManager.size Samples.kitchenAndLoft <= List.length more
           <= 2 * DeviceManager.size Samples.kitchenAndLoft)%nat.
Proof.
  assert (Hwf : DeviceManager.wf Samples.kitchenAndLoft).
  { apply wf_register. apply wf_register. apply wf_empty. }
  split; [exact Hwf|].
  exact (refreshNames_probes Samples.kitchenAndLoft Samples.loftAnswers Hwf).
Defined.

Section StreamingStop.

Context {N : Network} {U : Streaming.Udp}.

Import NanoleafClient Streaming.

Lemma closed_socket_step (panelColors : PanelColors) (st : Streaming.St) :
  streamingSocket (this (http st)) = false ->
  streamColors panelColors st
  = match initializeStreaming st with
    | (s, Fulfilled _) => streamColors panelColors s
    | (s, Rejected f) => (s, Rejected f)
    end.
Proof.
  intros Hclosed.
  pose proof (initializeStreaming_run st) as Hrun.
  unfold streamColors at 1, Streaming.bind at 1, getThis at 1.
  rewrite Hclosed. cbn [negb]. unfold Streaming.bind at 1.
  destruct (initializeStreaming st) as [s [u|f]] eqn:E; [|reflexivity].
  assert (Hs : streamingSocket (this (http s)) = true).
  { clear E. cbv zeta in Hrun.
    destruct (snd (http_get_root _ _ (world (http st)))); [|discriminate].
    destruct (snd (http_get_root _ _ (fst _))); [|discriminate].
    destruct (snd (http_put _ _ _ _ _)); [|discriminate].
    cbv iota beta in Hrun. inversion Hrun. reflexivity. }
  unfold streamColors, Streaming.bind, getThis. rewrite Hs. reflexivity.
Qed.

(** X27. [stopStreaming] is fulfilled without a request and without a
    datagram: it only closes the socket, and keeps the protocol version
    and the panel ids.  The device is not told to leave external
    control, and the next [streamColors] initialises streaming again,
    with its three requests, before it hands a datagram to the
    socket. *)
Theorem stopStreaming_then_stream (panelColors : PanelColors)
  (st : Streaming.St) :
  let stopped := fst (stopStreaming st) in
  snd (stopStreaming st) = Fulfilled tt
  /\ this (http stopped) = withSocket (this (http st)) false
  /\ sent (http stopped) = sent (http st)
  /\ world (http stopped) = world (http st)
  /\ handed stopped = handed st /\ air stopped = air st
  /\ streamColors panelColors stopped
     = match initializeStreaming stopped with
       | (s, Fulfilled _) => streamColors panelColors s
       | (s, Rejected f) => (s, Rejected f)
       end.
Proof.
  intros stopped.
  assert (Hstop : stopStreaming st
                  = (Streaming.mkSt
                       (NanoleafClient.mkSt (withSocket (this (http st)) false)
                          (world (http st)) (sent (http st)))
                       (air st) (handed st),
                     Fulfilled tt)).
  { unfold stopStreaming, Streaming.bind, getThis, setThis, Streaming.ret.
    destruct st as [[[a t s v ids cache] w log] ar h]. cbn.
    destruct s; reflexivity. }
  subst stopped. rewrite Hstop. cbn [fst snd http this sent world handed air].
  repeat split.
  apply closed_socket_step. reflexivity.
Qed.

End StreamingStop.
